(** * end-porter: path-prefix reverse proxy with a live-editable routing table

    A shallow embedding of [index.js] and of its refactored revision (the
    second copy of the server, which adds [dbg], [canonicalizeEndpoint] and
    [isValidEndpoint]), followed by the properties of the routing table, of
    the endpoint resolver and of the two request handlers.

    Conventions of the embedding.
    - A JavaScript string is a [string]: a sequence of code units, of which
      this development covers those below 256.
    - [undefined] is [None] at type [option _].
    - An expression that may throw has type [result _]; the exceptions of
      this program are [TypeError]s, the failures of [JSON.parse] and of
      the [URL] constructor, and what [http.request] throws for a port
      outside 0-65535; every [catch] of the program is a catch-all, so
      [Throw] carries no payload.
    - Logging ([console.log], [dbg]) is left out: it changes no state that
      the program reads. *)

From Stdlib Require Import String Ascii List ZArith Lia Bool Arith.
From Stdlib Require Import DecimalString Sorted Permutation.
Import ListNotations.

Local Open Scope string_scope.
Local Open Scope Z_scope.

(** ** Results of expressions that may throw *)

Inductive result (A : Type) : Type :=
| Ok (a : A)
| Throw.
Arguments Ok {A} a.
Arguments Throw {A}.

Definition rbind {A B} (r : result A) (k : A -> result B) : result B :=
  match r with
  | Ok a => k a
  | Throw => Throw
  end.

(** ** JavaScript strings *)

Module JsString.

Definition code (c : ascii) : Z := Z.of_N (N_of_ascii c).

(** [s.length] *)
Definition length (s : string) : Z := Z.of_nat (String.length s).

(** [s.startsWith(p)] *)
Definition startsWith (s p : string) : bool := String.prefix p s.

(** [s.slice(n)] for [0 <= n]. *)
Fixpoint drop (n : nat) (s : string) : string :=
  match n, s with
  | O, _ => s
  | S n', String _ s' => drop n' s'
  | S _, EmptyString => EmptyString
  end.

Definition slice (s : string) (n : Z) : string := drop (Z.to_nat n) s.

(** WhiteSpace and LineTerminator code units below 256: TAB, LF, VT, FF,
    CR, SP and NBSP. *)
Definition isWhiteSpace (c : ascii) : bool :=
  let n := code c in
  ((9 <=? n) && (n <=? 13)) || (n =? 32) || (n =? 160).

Fixpoint trimStart (s : string) : string :=
  match s with
  | String c s' => if isWhiteSpace c then trimStart s' else s
  | EmptyString => EmptyString
  end.

Fixpoint trimEnd (s : string) : string :=
  match s with
  | String c s' =>
      match trimEnd s' with
      | EmptyString => if isWhiteSpace c then EmptyString else String c EmptyString
      | r => String c r
      end
  | EmptyString => EmptyString
  end.

(** [s.trim()] *)
Definition trim (s : string) : string := trimEnd (trimStart s).

(** Code units with a distinct lower-case form below 256: A-Z and the
    Latin-1 capitals U+00C0..U+00DE without the multiplication sign. *)
Definition isUpper (c : ascii) : bool :=
  let n := code c in
  ((65 <=? n) && (n <=? 90))
  || ((192 <=? n) && (n <=? 222) && negb (n =? 215)).

Definition lowerChar (c : ascii) : ascii :=
  if isUpper c then ascii_of_N (N_of_ascii c + 32) else c.

(** [s.toLowerCase()] *)
Fixpoint toLowerCase (s : string) : string :=
  match s with
  | String c s' => String (lowerChar c) (toLowerCase s')
  | EmptyString => EmptyString
  end.

(** Truthiness of a string: [!s] is [negb (truthy s)]. *)
Definition truthy (s : string) : bool :=
  match s with
  | EmptyString => false
  | _ => true
  end.

(** [a || b] on strings. *)
Definition or (a b : string) : string := if truthy a then a else b.

End JsString.

(** ** Values decoded from a request body

    [JSON.parse] yields [null], booleans, numbers, strings, arrays and plain
    objects.  The program never does arithmetic on a number of a request
    body: it only converts it to a string ([parseInt], [String]), so a number
    is carried as the string that the conversion gives ([70000] is
    [JNum "70000"], [1e21] is [JNum "1e+21"]).  An object is the list of its
    own properties. *)

#[warnings="-register-all"]
Inductive json : Type :=
| JNull
| JBool (b : bool)
| JNum (repr : string)
| JStr (s : string)
| JArr (elems : list json)
| JObj (props : list (string * json)).

Module Js.

Import JsString.

(** Own property [k] of a parsed object. *)
Fixpoint own (props : list (string * json)) (k : string) : option json :=
  match props with
  | (k', v) :: rest => if String.eqb k' k then Some v else own rest k
  | [] => None
  end.

(** [data.k] for the property names this program reads ([action],
    [endpoint], [port], [oldEndpoint], [newEndpoint]), none of which is
    defined on a prototype: reading a property of [null] throws, a
    primitive or an array has no such property. *)
Definition prop (data : json) (k : string) : result (option json) :=
  match data with
  | JNull => Throw
  | JObj props => Ok (own props k)
  | _ => Ok None
  end.

(** [v === s] for a string literal [s]. *)
Definition strictEq (v : option json) (s : string) : bool :=
  match v with
  | Some (JStr s') => String.eqb s' s
  | _ => false
  end.

(** [ToString] of a decoded value.  An array is joined with commas, [null]
    elements giving the empty string.  A plain object gives
    ["[object Object]"] through [Object.prototype.toString], unless it has
    an own property [toString]: that value is not callable, [valueOf]
    returns the object, and the conversion throws. *)
Fixpoint ToString (v : json) : result string :=
  match v with
  | JNull => Ok "null"
  | JBool true => Ok "true"
  | JBool false => Ok "false"
  | JNum repr => Ok repr
  | JStr s => Ok s
  | JArr elems =>
      (fix join (l : list json) : result string :=
         match l with
         | [] => Ok ""
         | x :: rest =>
             rbind (match x with JNull => Ok "" | _ => ToString x end)
               (fun s =>
                  match rest with
                  | [] => Ok s
                  | _ => rbind (join rest) (fun r => Ok (s ++ "," ++ r))
                  end)
         end) elems
  | JObj props =>
      match own props "toString" with
      | Some _ => Throw
      | None => Ok "[object Object]"
      end
  end.

(** [String(v)], also for [undefined]. *)
Definition String_ (v : option json) : result string :=
  match v with
  | None => Ok "undefined"
  | Some v => ToString v
  end.

(** Value of a digit in radix up to 36. *)
Definition digitValue (c : ascii) : option Z :=
  let n := code c in
  if (48 <=? n) && (n <=? 57) then Some (n - 48)
  else if (97 <=? n) && (n <=? 122) then Some (n - 87)
  else if (65 <=? n) && (n <=? 90) then Some (n - 55)
  else None.

(** Longest prefix of radix-[radix] digits, read as a number; [acc] is
    [None] while no digit has been read. *)
Fixpoint digits (radix : Z) (s : string) (acc : option Z) : option Z :=
  match s with
  | String c s' =>
      match digitValue c with
      | Some d =>
          if d <? radix
          then digits radix s'
                 (Some (radix * match acc with Some a => a | None => 0 end + d))
          else acc
      | None => acc
      end
  | EmptyString => acc
  end.

(** [parseInt(s)] without a radix; [None] is [NaN].  The value is the
    mathematical integer of the digits: the program only compares it with
    1 and 65535, and a number in that range is represented exactly. *)
Definition parseIntString (s : string) : option Z :=
  let s := trimStart s in
  let '(sign, s) :=
    match s with
    | String "-" s' => (-1, s')
    | String "+" s' => (1, s')
    | _ => (1, s)
    end in
  let '(radix, s) :=
    match s with
    | String "0" (String "x" s') => (16, s')
    | String "0" (String "X" s') => (16, s')
    | _ => (10, s)
    end in
  match digits radix s None with
  | Some n => Some (sign * n)
  | None => None
  end.

(** [parseInt(v)] *)
Definition parseInt (v : option json) : result (option Z) :=
  rbind (String_ v) (fun s => Ok (parseIntString s)).

(** [Number::toString] of an integer: its decimal numeral (exact for
    magnitudes below 1e21). *)
Definition Number_toString (n : Z) : string :=
  NilZero.string_of_int (Z.to_int n).

(** The number [n] of a request body. *)
Definition JInt (n : Z) : json := JNum (Number_toString n).

End Js.

(** ** The routing table: a JavaScript object used as a map

    [mappings] is the list of its own properties in the order in which
    [Object.keys] enumerates them.  The admin handler only ever writes keys
    that begin with a slash; such a key is no array index, so a new one is
    enumerated last, and no such key is defined on [Object.prototype].  The
    values are ports: integers, as [parseInt] gives them.  The keys of an
    object are pairwise distinct; no property below depends on it. *)

Definition table : Type := list (string * Z).

Module Obj.

(** [m[k]] *)
Fixpoint get (m : table) (k : string) : option Z :=
  match m with
  | (k', v) :: rest => if String.eqb k' k then Some v else get rest k
  | [] => None
  end.

(** [m[k] = v] *)
Fixpoint set (m : table) (k : string) (v : Z) : table :=
  match m with
  | (k', v') :: rest =>
      if String.eqb k' k then (k', v) :: rest else (k', v') :: set rest k v
  | [] => [(k, v)]
  end.

(** [delete m[k]] *)
Definition delete (m : table) (k : string) : table :=
  filter (fun kv => negb (String.eqb (fst kv) k)) m.

(** [Object.keys(m)] *)
Definition keys (m : table) : list string := map fst m.

(** [m.hasOwnProperty(k)].  The method is found on the prototype unless
    the table itself has a property of that name, whose value (a port) is
    not callable. *)
Definition hasOwnProperty (m : table) (k : string) : result bool :=
  match get m "hasOwnProperty" with
  | Some _ => Throw
  | None => Ok (match get m k with Some _ => true | None => false end)
  end.

End Obj.

(** The keys of a routing table are endpoints: each begins with a slash.
    The admin handler keeps it so ([guiServer_keeps_routingTable]). *)
Definition routingTable (m : table) : Prop :=
  Forall (fun kv => JsString.startsWith (fst kv) "/" = true) m.

(** [keys.sort((a, b) => b.length - a.length)]: a stable sort, longest key
    first. *)
Fixpoint insertByLength (a : string) (l : list string) : list string :=
  match l with
  | b :: rest =>
      if JsString.length b - JsString.length a >? 0
      then b :: insertByLength a rest
      else a :: l
  | [] => [a]
  end.

Definition sortByLength (l : list string) : list string :=
  fold_right insertByLength [] l.

(** The order of the sorted keys. *)
Definition longerFirst (a b : string) : Prop :=
  (String.length b <= String.length a)%nat.

(** ** The platform

    What the program takes from its runtime and its files: the [URL]
    constructor ([None] when it throws), of which the program reads
    [pathname] and [search]; the two configured ports, as they are
    interpolated into the base URLs; the contents of [index.html]; and the
    outcome of the liveness probe of a port. *)

Record URL : Type := { pathname : string; search : string }.

Class Platform : Type := {
  URL_new : string -> option string -> option URL;
  PORT : string;
  GUI_PORT : string;
  html : string;
  checkPortStatus : Z -> bool
}.

(** ** Requests and what a handler does with them *)

Record Request : Type := {
  method : string;
  url : string;
  (** [req.headers.referer] and [req.headers.referrer] *)
  referer : option string;
  referrer : option string;
  (** the request body once complete and given to [JSON.parse]; [None] when
      [JSON.parse] throws *)
  body : option json
}.

Inductive Body : Type :=
| Text (s : string)
| Status (entries : list (string * (Z * bool))).

Record Response : Type := {
  status : Z;
  contentType : option string;
  content : Body
}.

Inductive Outcome : Type :=
(** [res.writeHead(...); res.end(...)] *)
| Reply (r : Response)
(** [http.request(targetUrl, { method, headers }, ...)], the request body
    piped into it *)
| Forward (port : option Z) (targetPath targetUrl : string)
(** an exception leaves the handler, or the promise it waits for is
    rejected: no reply is written *)
| Uncaught.

Definition notFound : Response :=
  {| status := 404; contentType := Some "text/plain"; content := Text "Not Found" |}.

(** The ports that [http.request] takes.  It throws, before any request is
    made, for a port outside 0-65535: in [proxyServer] when it parses
    [targetUrl] with the [URL] constructor, in [checkPortStatus] when the
    socket checks the [port] option. *)
Definition validPort (port : Z) : bool := (0 <=? port) && (port <=? 65535).

(** The same for the port of a match, [undefined] when the table has no
    such key: [targetUrl] then reads [http://localhost:undefined...], which
    the [URL] constructor refuses. *)
Definition requestable (port : option Z) : bool :=
  match port with
  | Some n => validPort n
  | None => false
  end.

(** ** The endpoint resolver and the proxy server (the same in both
    revisions) *)

Record Match : Type := {
  endpoint : string;
  port : option Z;
  matchedByPath : bool
}.

(** [p === endpoint || p.startsWith(endpoint + '/')], the test of the two
    loops of [findEndpoint]. *)
Definition hit (p endpoint : string) : bool :=
  String.eqb p endpoint || JsString.startsWith p (endpoint ++ "/").

Section Proxy.

Context {platform : Platform}.

Import JsString.

(** One [for (const endpoint of sortedEndpoints)] loop of [findEndpoint]
    over the path [p]. *)
Fixpoint scan (mappings : table) (p : string) (byPath : bool)
         (sortedEndpoints : list string) : option Match :=
  match sortedEndpoints with
  | endpoint :: rest =>
      if hit p endpoint
      then Some {| endpoint := endpoint;
                   port := Obj.get mappings endpoint;
                   matchedByPath := byPath |}
      else scan mappings p byPath rest
  | [] => None
  end.

Definition findEndpoint (mappings : table) (path referer : string)
  : option Match :=
  let sortedEndpoints := sortByLength (Obj.keys mappings) in
  match scan mappings path true sortedEndpoints with
  | Some m => Some m
  | None =>
      if truthy referer then
        match URL_new referer None with
        | Some refUrl => scan mappings (pathname refUrl) false sortedEndpoints
        | None => None
        end
      else None
  end.

(** [`${port}`] (an integer is rendered in decimal) *)
Definition showPort (port : option Z) : string :=
  match port with
  | Some n => Js.Number_toString n
  | None => "undefined"
  end.

(** [req.headers.referer || req.headers.referrer || ''], a missing header
    being [undefined] *)
Definition refererOf (req : Request) : string :=
  or (or (match referer req with Some s => s | None => "" end)
         (match referrer req with Some s => s | None => "" end)) "".

Definition proxyServer (mappings : table) (req : Request) : Outcome :=
  match URL_new (url req) (Some ("http://localhost:" ++ PORT)) with
  | None => Uncaught
  | Some parsedUrl =>
      let path := pathname parsedUrl in
      let referer := refererOf req in
      if String.eqb path "/gui" || startsWith path "/gui/" then Reply notFound
      else
        match findEndpoint mappings path referer with
        | Some m =>
            let targetPath :=
              if matchedByPath m
              then or (slice path (length (endpoint m))) "/"
              else path in
            let targetUrl :=
              "http://localhost:" ++ showPort (port m) ++ targetPath
                ++ or (search parsedUrl) "" in
            if requestable (port m)
            then Forward (port m) targetPath targetUrl
            else Uncaught
        | None => Reply notFound
        end
  end.

(** The answer of the [proxyReq.on('error', ...)] callback when the forward
    fails. *)
Definition badGateway (port : option Z) : Response :=
  {| status := 502; contentType := Some "text/plain";
     content := Text ("Bad Gateway - Is app running on port " ++ showPort port ++ "?") |}.

End Proxy.

(** ** The admin server: state and control flow

    The admin handler reads and writes [mappings] and rewrites the mappings
    file.  [saved] lists what [saveMappings] has written, latest first, each
    entry standing for the [JSON.stringify] of the table at that moment;
    writing the file is taken to succeed.  The table of the first world is
    what the mappings file holds at start-up, or empty.  The body of a
    handler either goes on to its next statement, ends the response and
    returns, or throws. *)

Record World : Type := {
  mappings : table;
  saved : list table
}.

Inductive ctl (A : Type) : Type :=
| Next (a : A)
| Done (r : Response)
| Raise.
Arguments Next {A} a.
Arguments Done {A} r.
Arguments Raise {A}.

Definition M (A : Type) : Type := World -> ctl A * World.

Definition ret {A} (a : A) : M A := fun w => (Next a, w).

Definition bind {A B} (c : M A) (k : A -> M B) : M B :=
  fun w =>
    match c w with
    | (Next a, w') => k a w'
    | (Done r, w') => (Done r, w')
    | (Raise, w') => (Raise, w')
    end.

Declare Scope handler_scope.
Delimit Scope handler_scope with handler.
Notation "x <- c ;; k" := (bind c (fun x => k))
  (at level 61, c at next level, right associativity) : handler_scope.
Notation "c ;; k" := (bind c (fun _ => k))
  (at level 61, right associativity) : handler_scope.
Local Open Scope handler_scope.

(** [res.writeHead(...); res.end(...); return;] *)
Definition reply {A} (r : Response) : M A := fun w => (Done r, w).

Definition lift {A} (r : result A) : M A :=
  fun w => match r with Ok a => (Next a, w) | Throw => (Raise, w) end.

(** [try { body } catch { handler }] *)
Definition tryCatch {A} (body handler : M A) : M A :=
  fun w =>
    match body w with
    | (Raise, w') => handler w'
    | other => other
    end.

Definition getMappings : M table := fun w => (Next (mappings w), w).

Definition putMappings (m : table) : M unit :=
  fun w => (Next tt, {| mappings := m; saved := saved w |}).

(** [saveMappings()] *)
Definition saveMappings : M unit :=
  fun w => (Next tt, {| mappings := mappings w; saved := mappings w :: saved w |}).

(** A handler, whose every path ends the response or throws, run in a
    world. *)
Definition run (h : M Empty_set) (w : World) : Outcome * World :=
  match h w with
  | (Next e, _) => match e with end
  | (Done r, w') => (Reply r, w')
  | (Raise, w') => (Uncaught, w')
  end.

Definition plain (code : Z) (msg : string) : Response :=
  {| status := code; contentType := Some "text/plain"; content := Text msg |}.

Definition bare (code : Z) (msg : string) : Response :=
  {| status := code; contentType := None; content := Text msg |}.

(** The reply that serves [index.html]. *)
Definition page {platform : Platform} : Response :=
  {| status := 200; contentType := Some "text/html"; content := Text html |}.

(** The world after a successful update that leaves the table [m]. *)
Definition updated (w : World) (m : table) : World :=
  {| mappings := m; saved := m :: saved w |}.

(** [/^\/[a-z0-9-_]+$/.test(s)] *)
Definition endpointChar (c : ascii) : bool :=
  let n := JsString.code c in
  ((97 <=? n) && (n <=? 122)) || ((48 <=? n) && (n <=? 57))
  || (n =? 45) || (n =? 95).

Fixpoint allEndpointChars (s : string) : bool :=
  match s with
  | String c s' => endpointChar c && allEndpointChars s'
  | EmptyString => true
  end.

Definition endpointRe (s : string) : bool :=
  match s with
  | String "/" (String c s') => allEndpointChars (String c s')
  | _ => false
  end.

(** [isValidEndpoint(endpoint)] of the refactored revision; [index.js] has
    the negated test inline. *)
Definition isValidEndpoint (endpoint : string) : bool :=
  endpointRe endpoint && negb (String.eqb endpoint "/gui").

(** [if (!s.startsWith('/')) s = '/' + s] *)
Definition withSlash (s : string) : string :=
  if negb (JsString.startsWith s "/") then "/" ++ s else s.

(** [!e] for a value that is a string, [undefined] or [null] *)
Definition absent (e : option string) : bool :=
  match e with
  | Some s => negb (JsString.truthy s)
  | None => true
  end.

(** The string that [e] is, once [!e] has been ruled out. *)
Definition text (e : option string) : string :=
  match e with Some s => s | None => "" end.

(** [data.action === name] *)
Definition actionIs (data : json) (name : string) : M bool :=
  a <- lift (Js.prop data "action") ;; ret (Js.strictEq a name).

(** [const port = parseInt(data.port)], the range check, and
    [mappings[endpoint] = port] (the same in both revisions). *)
Definition addPort (data : json) (endpoint : string) : M unit :=
  port <- lift (rbind (Js.prop data "port") Js.parseInt) ;;
  match port with
  | None => reply (plain 400 "Invalid port")
  | Some port =>
      if (port <? 1) || (port >? 65535)
      then reply (plain 400 "Invalid port")
      else m <- getMappings ;; putMappings (Obj.set m endpoint port)
  end.

(** The rest of the rename branch once both endpoints are accepted (the
    same in both revisions). *)
Definition moveEndpoint (oldEndpoint newEndpoint : string) : M unit :=
  m <- getMappings ;;
  has <- lift (Obj.hasOwnProperty m oldEndpoint) ;;
  if negb has then reply (plain 404 "Old endpoint not found")
  else
    match Obj.get m oldEndpoint with
    | Some v => putMappings (Obj.delete (Obj.set m newEndpoint v) oldEndpoint)
    | None => ret tt (* not reached: the property is present *)
    end.

Section Admin.

Context {platform : Platform}.

(** [result[endpoint] = { port, online }] adds a property to [result],
    except for the key [__proto__], which sets the prototype of [result]
    and adds nothing. *)
Definition reported (kv : string * Z) : bool :=
  negb (String.eqb (fst kv) "__proto__").

(** [getMappingsWithStatus()]: every entry of the table is probed, in the
    order of the table.  A probe of a port that [http.request] does not
    take throws inside the promise of [checkPortStatus]; the promise of
    [getMappingsWithStatus] is then rejected, and [guiServer] has no
    handler for that. *)
Definition getMappingsWithStatus : M (list (string * (Z * bool))) :=
  m <- getMappings ;;
  if forallb (fun kv => validPort (snd kv)) m
  then ret (map (fun kv => (fst kv, (snd kv, checkPortStatus (snd kv))))
                (filter reported m))
  else lift Throw.

End Admin.

(** ** The admin server of [index.js] *)

Module IndexJs.
Section Server.

Context {platform : Platform}.

Import JsString.

(** [v?.trim().toLowerCase()]: [undefined] for [undefined] and [null]; a
    value other than a string has no callable [trim]. *)
Definition optTrimLower (v : option json) : result (option string) :=
  match v with
  | None | Some JNull => Ok None
  | Some (JStr s) => Ok (Some (toLowerCase (trim s)))
  | Some _ => Throw
  end.

(** The endpoint that a branch of the update handler arrives at: the field
    through [?.trim().toLowerCase()], refused when falsy ([None]), then
    given its leading slash. *)
Definition endpointOf (v : option json) : result (option string) :=
  rbind (optTrimLower v)
    (fun e => Ok (if absent e then None else Some (withSlash (text e)))).

Definition add (data : json) : M unit :=
  endpoint <- lift (rbind (Js.prop data "endpoint") optTrimLower) ;;
  if absent endpoint then reply (plain 400 "Invalid endpoint")
  else
    let endpoint := withSlash (text endpoint) in
    if negb (endpointRe endpoint) || String.eqb endpoint "/gui"
    then reply (plain 400 "Invalid endpoint")
    else addPort data endpoint.

Definition delete (data : json) : M unit :=
  endpoint <- lift (rbind (Js.prop data "endpoint") optTrimLower) ;;
  if absent endpoint then reply (plain 400 "Invalid endpoint")
  else
    let endpoint := withSlash (text endpoint) in
    m <- getMappings ;; putMappings (Obj.delete m endpoint).

Definition rename (data : json) : M unit :=
  oldEndpoint <- lift (rbind (Js.prop data "oldEndpoint") optTrimLower) ;;
  newEndpoint <- lift (rbind (Js.prop data "newEndpoint") optTrimLower) ;;
  if absent oldEndpoint || absent newEndpoint
  then reply (plain 400 "Invalid endpoint")
  else
    let oldEndpoint := withSlash (text oldEndpoint) in
    let newEndpoint := withSlash (text newEndpoint) in
    if negb (endpointRe newEndpoint) || String.eqb newEndpoint "/gui"
    then reply (plain 400 "Invalid new endpoint")
    else moveEndpoint oldEndpoint newEndpoint.

(** The [req.on('end', ...)] callback of [POST /update]. *)
Definition update (req : Request) : M Empty_set :=
  tryCatch
    (data <- lift (match body req with Some d => Ok d | None => Throw end) ;;
     isAdd <- actionIs data "add" ;;
     (if isAdd then add data
      else
        isDelete <- actionIs data "delete" ;;
        if isDelete then delete data
        else
          isRename <- actionIs data "rename" ;;
          if isRename then rename data else ret tt) ;;
     saveMappings ;;
     reply (bare 200 "OK"))
    (reply (bare 400 "Invalid JSON")).

Definition guiServer (req : Request) : M Empty_set :=
  parsedUrl <- lift (match URL_new (url req) (Some ("http://localhost:" ++ GUI_PORT)) with
                     | Some u => Ok u
                     | None => Throw
                     end) ;;
  let path := pathname parsedUrl in
  if String.eqb path "/" || String.eqb path "/gui"
  then reply {| status := 200; contentType := Some "text/html"; content := Text html |}
  else if (String.eqb path "/get" || String.eqb path "/gui/get")
          && String.eqb (method req) "GET"
  then
    st <- getMappingsWithStatus ;;
    reply {| status := 200; contentType := Some "application/json"; content := Status st |}
  else if (String.eqb path "/update" || String.eqb path "/gui/update")
          && String.eqb (method req) "POST"
  then update req
  else reply notFound.

(** [req] is a [POST] to the update route with a body that parses to
    [data]. *)
Definition posted (req : Request) (data : json) : Prop :=
  method req = "POST" /\ body req = Some data
  /\ exists u, URL_new (url req) (Some ("http://localhost:" ++ GUI_PORT)) = Some u
             /\ (pathname u = "/update" \/ pathname u = "/gui/update").

End Server.
End IndexJs.

(** ** The admin server of the refactored revision *)

Module Refactored.
Section Server.

Context {platform : Platform}.

Import JsString.

(** [null] is [None]. *)
Definition canonicalizeEndpoint (raw : option json) : result (option string) :=
  match raw with
  | None | Some JNull => Ok None
  | Some v =>
      rbind (Js.ToString v)
        (fun s =>
           let s := toLowerCase (trim s) in
           if negb (truthy s) then Ok None else Ok (Some (withSlash s)))
  end.

Definition add (data : json) : M unit :=
  endpoint <- lift (rbind (Js.prop data "endpoint") canonicalizeEndpoint) ;;
  if absent endpoint || negb (isValidEndpoint (text endpoint))
  then reply (plain 400 "Invalid endpoint")
  else addPort data (text endpoint).

Definition delete (data : json) : M unit :=
  endpoint <- lift (rbind (Js.prop data "endpoint") canonicalizeEndpoint) ;;
  if absent endpoint then reply (plain 400 "Invalid endpoint")
  else m <- getMappings ;; putMappings (Obj.delete m (text endpoint)).

Definition rename (data : json) : M unit :=
  oldEndpoint <- lift (rbind (Js.prop data "oldEndpoint") canonicalizeEndpoint) ;;
  newEndpoint <- lift (rbind (Js.prop data "newEndpoint") canonicalizeEndpoint) ;;
  if absent oldEndpoint || absent newEndpoint
     || negb (isValidEndpoint (text newEndpoint))
  then reply (plain 400 "Invalid endpoint")
  else moveEndpoint (text oldEndpoint) (text newEndpoint).

Definition update (req : Request) : M Empty_set :=
  tryCatch
    (data <- lift (match body req with Some d => Ok d | None => Throw end) ;;
     isAdd <- actionIs data "add" ;;
     (if isAdd then add data
      else
        isDelete <- actionIs data "delete" ;;
        if isDelete then delete data
        else
          isRename <- actionIs data "rename" ;;
          if isRename then rename data else ret tt) ;;
     saveMappings ;;
     reply (bare 200 "OK"))
    (reply (bare 400 "Invalid JSON")).

Definition guiServer (req : Request) : M Empty_set :=
  parsedUrl <- lift (match URL_new (url req) (Some ("http://localhost:" ++ GUI_PORT)) with
                     | Some u => Ok u
                     | None => Throw
                     end) ;;
  let path := pathname parsedUrl in
  if String.eqb path "/"
  then reply {| status := 200; contentType := Some "text/html"; content := Text html |}
  else if String.eqb path "/get" && String.eqb (method req) "GET"
  then
    st <- getMappingsWithStatus ;;
    reply {| status := 200; contentType := Some "application/json"; content := Status st |}
  else if String.eqb path "/update" && String.eqb (method req) "POST"
  then update req
  else reply notFound.

(** [req] is a [POST] to the update route with a body that parses to
    [data]. *)
Definition posted (req : Request) (data : json) : Prop :=
  method req = "POST" /\ body req = Some data
  /\ exists u, URL_new (url req) (Some ("http://localhost:" ++ GUI_PORT)) = Some u
             /\ pathname u = "/update".

End Server.
End Refactored.

(** ** A common form of the two update handlers

    The two revisions differ in how a field becomes an endpoint ([canon])
    and in the message for a new endpoint that is not valid
    ([invalidNew]). *)

Section Common.

Variable canon : option json -> result (option string).
Variable invalidNew : string.

Definition addWith (data : json) : M unit :=
  endpoint <- lift (rbind (Js.prop data "endpoint") canon) ;;
  match endpoint with
  | Some e =>
      if isValidEndpoint e then addPort data e
      else reply (plain 400 "Invalid endpoint")
  | None => reply (plain 400 "Invalid endpoint")
  end.

Definition deleteWith (data : json) : M unit :=
  endpoint <- lift (rbind (Js.prop data "endpoint") canon) ;;
  match endpoint with
  | Some e => m <- getMappings ;; putMappings (Obj.delete m e)
  | None => reply (plain 400 "Invalid endpoint")
  end.

Definition renameWith (data : json) : M unit :=
  oldEndpoint <- lift (rbind (Js.prop data "oldEndpoint") canon) ;;
  newEndpoint <- lift (rbind (Js.prop data "newEndpoint") canon) ;;
  match oldEndpoint, newEndpoint with
  | Some a, Some b =>
      if isValidEndpoint b then moveEndpoint a b
      else reply (plain 400 invalidNew)
  | _, _ => reply (plain 400 "Invalid endpoint")
  end.

Definition updateWith (req : Request) : M Empty_set :=
  tryCatch
    (data <- lift (match body req with Some d => Ok d | None => Throw end) ;;
     isAdd <- actionIs data "add" ;;
     (if isAdd then addWith data
      else
        isDelete <- actionIs data "delete" ;;
        if isDelete then deleteWith data
        else
          isRename <- actionIs data "rename" ;;
          if isRename then renameWith data else ret tt) ;;
     saveMappings ;;
     reply (bare 200 "OK"))
    (reply (bare 400 "Invalid JSON")).

End Common.

(** ** A reference platform

    A fragment of the [URL] constructor, enough to run the servers on plain
    inputs: an [http://host/path] URL with a host of lower-case letters, or
    an absolute path resolved against a base, the path made of unreserved
    characters and slashes, without [.] or [..] segments.  On such an input
    nothing is normalised or escaped and the path is the text from the
    first slash on.  Every other input is declined ([None]), also where the
    real constructor would accept it. *)

Module Plain.

Import JsString.

Definition unreserved (c : ascii) : bool :=
  let n := code c in
  ((97 <=? n) && (n <=? 122)) || ((65 <=? n) && (n <=? 90))
  || ((48 <=? n) && (n <=? 57))
  || (n =? 45) || (n =? 46) || (n =? 95) || (n =? 126).

Fixpoint pathChars (s : string) : bool :=
  match s with
  | String c s' => (unreserved c || (code c =? 47)) && pathChars s'
  | EmptyString => true
  end.

Fixpoint dotSegment (s : string) : bool :=
  match s with
  | String "/" rest =>
      match rest with
      | "." | ".." => true
      | String "." (String "/" _) => true
      | String "." (String "." (String "/" _)) => true
      | _ => dotSegment rest
      end
  | String _ rest => dotSegment rest
  | EmptyString => false
  end.

(** An absolute path that the constructor leaves as it is. *)
Definition plainPath (s : string) : bool :=
  startsWith s "/" && negb (startsWith s "//")
  && pathChars s && negb (dotSegment s).

(** A host of lower-case letters: no number, no label to decode. *)
Fixpoint hostChars (s : string) : bool :=
  match s with
  | String c s' =>
      let n := code c in
      ((97 <=? n) && (n <=? 122)) && hostChars s'
  | EmptyString => true
  end.

(** Splits [host/path] at the first slash. *)
Fixpoint splitHost (s : string) : string * string :=
  match s with
  | String "/" _ => (EmptyString, s)
  | String c s' => let '(h, p) := splitHost s' in (String c h, p)
  | EmptyString => (EmptyString, EmptyString)
  end.

Definition parse (input : string) (base : option string) : option URL :=
  if startsWith input "http://" then
    let '(host, path) := splitHost (slice input 7) in
    if truthy host && hostChars host && plainPath path
    then Some {| pathname := path; search := "" |}
    else None
  else
    match base with
    | Some _ =>
        if plainPath input
        then Some {| pathname := input; search := "" |}
        else None
    | None => None
    end.

Definition platform : Platform := {|
  URL_new := parse;
  PORT := "3003";
  GUI_PORT := "3004";
  html := "<!DOCTYPE html>";
  checkPortStatus := fun _ => false
|}.

End Plain.

(** ** Concrete requests, tables and bodies *)

Module Examples.

Definition fetch (target : string) (ref : option string) : Request :=
  {| method := "GET"; url := target; referer := ref; referrer := None;
     body := None |}.

Definition post (data : json) : Request :=
  {| method := "POST"; url := "/update"; referer := None; referrer := None;
     body := Some data |}.

Definition at_ (path : string) : URL := {| pathname := path; search := "" |}.

Definition world (m : table) : World := {| mappings := m; saved := [] |}.

Definition add (e : json) (p : json) : json :=
  JObj [("action", JStr "add"); ("endpoint", e); ("port", p)].

Definition rename (a b : json) : json :=
  JObj [("action", JStr "rename"); ("oldEndpoint", a); ("newEndpoint", b)].

Definition twoApps : table := [("/app", 8080); ("/app/api", 9090)].

Definition threeApps : table :=
  [("/app", 8080); ("/app/api", 9090); ("/app/api/users", 7000)].

Definition oneApp : table := [("/app", 8080)].

Definition remove (e : json) : json :=
  JObj [("action", JStr "delete"); ("endpoint", e)].

Definition appAndBlog : table := [("/app", 8080); ("/blog", 8081)].

End Examples.

(** ** Auxiliary definitions of the proofs *)

(** A string without white space and without capitals. *)
Fixpoint plainString (s : string) : Prop :=
  match s with
  | String c s' =>
      JsString.isWhiteSpace c = false /\ JsString.isUpper c = false /\ plainString s'
  | EmptyString => True
  end.

(** [f] holds of the [n] integers from [lo] on. *)
Fixpoint allFrom (f : Z -> bool) (lo : Z) (n : nat) : bool :=
  match n with
  | O => true
  | S n' => f lo && allFrom f (lo + 1) n'
  end.

(** ** Definitions of the further properties *)

(** A table as the admin server builds it: every key a valid endpoint,
    every port in range. *)
Definition adminTable (m : table) : Prop :=
  Forall (fun kv => isValidEndpoint (fst kv) = true /\ 1 <= snd kv <= 65535) m.

(** A table whose every port is one that [http.request] takes. *)
Definition portsInRange (m : table) : Prop :=
  Forall (fun kv => 0 <= snd kv <= 65535) m.

(** The status code of a reply. *)
Definition statusOf (o : Outcome) : option Z :=
  match o with
  | Reply r => Some (status r)
  | _ => None
  end.

(** A field that is absent, [null] or a string. *)
Definition textField (v : result (option json)) : Prop :=
  match v with
  | Ok None | Ok (Some JNull) | Ok (Some (JStr _)) => True
  | _ => False
  end.

(** The code units of [s] before its first slash. *)
Fixpoint upToSlash (s : string) : string :=
  match s with
  | String c s' => if Ascii.eqb c "/" then EmptyString else String c (upToSlash s')
  | EmptyString => EmptyString
  end.

(** The first segment of a path, with its leading slash. *)
Definition firstSegment (p : string) : string :=
  match p with
  | String c rest => String c (upToSlash rest)
  | EmptyString => EmptyString
  end.

(** The strings of [l] that have [n] code units, in their order. *)
Definition ofLength (n : nat) (l : list string) : list string :=
  filter (fun s => Nat.eqb (String.length s) n) l.

(** What a run of the update handler comes to, for a handler in the common
    form: a refusal that leaves the world as it is, or one of the four
    acknowledged outcomes, each saved. *)
Inductive updateResult (w : World) : Outcome * World -> Prop :=
| Refused (r : Response) :
    status r = 400 \/ status r = 404 ->
    updateResult w (Reply r, w)
| Added (e : string) (p : Z) :
    isValidEndpoint e = true -> 1 <= p <= 65535 ->
    updateResult w (Reply (bare 200 "OK"), updated w (Obj.set (mappings w) e p))
| Deleted (e : string) :
    updateResult w (Reply (bare 200 "OK"), updated w (Obj.delete (mappings w) e))
| Renamed (a b : string) (v : Z) :
    isValidEndpoint b = true -> Obj.get (mappings w) a = Some v ->
    updateResult w
      (Reply (bare 200 "OK"),
       updated w (Obj.delete (Obj.set (mappings w) b v) a))
| Untouched :
    updateResult w (Reply (bare 200 "OK"), updated w (mappings w)).

(** * Properties *)

(** ** Strings *)

Lemma prefix_refl (s : string) : String.prefix s s = true.
Proof.
  induction s as [|c s IH]; simpl; [reflexivity|].
  destruct (ascii_dec c c); [assumption|congruence].
Qed.

Lemma prefix_app_l (a b s : string) :
  String.prefix (a ++ b) s = true -> String.prefix a s = true.
Proof.
  revert s; induction a as [|c a IH]; intros [|d s] H; simpl in *;
    try reflexivity; try discriminate.
  destruct (ascii_dec c d); [eauto|discriminate].
Qed.

Lemma prefix_length (a s : string) :
  String.prefix a s = true -> (String.length a <= String.length s)%nat.
Proof.
  revert s; induction a as [|c a IH]; intros [|d s] H; simpl in *;
    try lia; try discriminate.
  destruct (ascii_dec c d); [|discriminate].
  specialize (IH _ H); lia.
Qed.

(** Two prefixes of one string that have the same length are the same. *)
Lemma prefix_same_length (a b s : string) :
  String.prefix a s = true -> String.prefix b s = true ->
  String.length a = String.length b -> a = b.
Proof.
  revert b s; induction a as [|c a IH]; intros [|c' b] [|d s] Ha Hb Hlen;
    simpl in *; try discriminate; try reflexivity.
  destruct (ascii_dec c d); [|discriminate].
  destruct (ascii_dec c' d); [|discriminate].
  subst; f_equal; eapply IH; eauto.
Qed.

Lemma prefix_substring (a s : string) :
  String.prefix a s = true -> a = substring 0 (String.length a) s.
Proof. intros H; symmetry; now apply prefix_correct. Qed.

Lemma length_app (a b : string) :
  String.length (a ++ b) = (String.length a + String.length b)%nat.
Proof. induction a; simpl; congruence. Qed.

Lemma hit_prefix (p e : string) : hit p e = true -> String.prefix e p = true.
Proof.
  unfold hit, JsString.startsWith; intros H.
  apply orb_true_iff in H as [H|H].
  - apply String.eqb_eq in H; subst; apply prefix_refl.
  - eapply prefix_app_l; eassumption.
Qed.

(** A stored endpoint that matches is the path itself or ends where the
    path has a slash. *)
Lemma hit_cases (p e : string) :
  hit p e = true ->
  e = p \/ (String.prefix (e ++ "/") p = true /\ (String.length e < String.length p)%nat).
Proof.
  unfold hit, JsString.startsWith; intros H.
  apply orb_true_iff in H as [H|H].
  - apply String.eqb_eq in H; auto.
  - right; split; [assumption|].
    apply prefix_length in H; rewrite length_app in H; simpl in H; lia.
Qed.

(** ** The routing table *)

Lemma get_In_keys (m : table) (k : string) (v : Z) :
  Obj.get m k = Some v -> In k (Obj.keys m).
Proof.
  induction m as [|[k' v'] m IH]; simpl; [discriminate|].
  destruct (String.eqb_spec k' k); auto.
Qed.

Lemma In_keys_get (m : table) (k : string) :
  In k (Obj.keys m) -> exists v, Obj.get m k = Some v.
Proof.
  induction m as [|[k' v'] m IH]; simpl; [tauto|].
  destruct (String.eqb_spec k' k); eauto.
  intros [?|?]; [contradiction|auto].
Qed.

Lemma get_set_same (m : table) (k : string) (v : Z) :
  Obj.get (Obj.set m k v) k = Some v.
Proof.
  induction m as [|[k' v'] m IH]; simpl.
  - now rewrite String.eqb_refl.
  - destruct (String.eqb_spec k' k) as [->|Hne]; simpl.
    + now rewrite String.eqb_refl.
    + destruct (String.eqb_spec k' k); [contradiction|assumption].
Qed.

Lemma get_set_other (m : table) (k k' : string) (v : Z) :
  k <> k' -> Obj.get (Obj.set m k v) k' = Obj.get m k'.
Proof.
  intros Hne; induction m as [|[k0 v0] m IH]; simpl.
  - destruct (String.eqb_spec k k'); [contradiction|reflexivity].
  - destruct (String.eqb_spec k0 k) as [->|H0]; simpl.
    + destruct (String.eqb_spec k k'); [contradiction|reflexivity].
    + destruct (String.eqb_spec k0 k'); auto.
Qed.

Lemma get_delete_same (m : table) (k : string) :
  Obj.get (Obj.delete m k) k = None.
Proof.
  unfold Obj.delete; induction m as [|[k' v'] m IH]; simpl; [reflexivity|].
  destruct (String.eqb_spec k' k) as [->|Hne]; simpl; [assumption|].
  destruct (String.eqb_spec k' k); [contradiction|assumption].
Qed.

Lemma get_delete_other (m : table) (k k' : string) :
  k <> k' -> Obj.get (Obj.delete m k) k' = Obj.get m k'.
Proof.
  intros Hne; unfold Obj.delete; induction m as [|[k0 v0] m IH]; simpl; [reflexivity|].
  destruct (String.eqb_spec k0 k) as [->|H0]; simpl.
  - destruct (String.eqb_spec k k'); [contradiction|assumption].
  - destruct (String.eqb_spec k0 k'); auto.
Qed.

(** Deleting a key that is not there changes nothing. *)
Lemma delete_absent (m : table) (k : string) :
  Obj.get m k = None -> Obj.delete m k = m.
Proof.
  unfold Obj.delete; induction m as [|[k' v'] m IH]; simpl; [reflexivity|].
  destruct (String.eqb_spec k' k); [discriminate|].
  intros H; simpl; f_equal; auto.
Qed.

(** Writing the value a key already has changes nothing. *)
Lemma set_same_value (m : table) (k : string) (v : Z) :
  Obj.get m k = Some v -> Obj.set m k v = m.
Proof.
  induction m as [|[k' v'] m IH]; simpl; [discriminate|].
  destruct (String.eqb_spec k' k); intros H.
  - congruence.
  - f_equal; auto.
Qed.

(** ** Sorting by length *)

Lemma In_insertByLength (a x : string) (l : list string) :
  In x (insertByLength a l) <-> x = a \/ In x l.
Proof.
  induction l as [|b l IH]; simpl; [intuition|].
  destruct (_ >? 0); simpl; rewrite ?IH; intuition.
Qed.

Lemma In_sortByLength (x : string) (l : list string) :
  In x (sortByLength l) <-> In x l.
Proof.
  induction l as [|a l IH]; simpl; [tauto|].
  rewrite In_insertByLength, IH; intuition.
Qed.

Lemma insertByLength_perm (a : string) (l : list string) :
  Permutation (a :: l) (insertByLength a l).
Proof.
  induction l as [|b l IH]; simpl; [reflexivity|].
  destruct (_ >? 0); [|reflexivity].
  rewrite perm_swap; now constructor.
Qed.

Lemma sortByLength_perm (l : list string) : Permutation l (sortByLength l).
Proof.
  induction l as [|a l IH]; simpl; [constructor|].
  rewrite <- insertByLength_perm; now constructor.
Qed.

Lemma insertByLength_sorted (a : string) (l : list string) :
  StronglySorted longerFirst l -> StronglySorted longerFirst (insertByLength a l).
Proof.
  induction 1 as [|b l Hs IH Hb]; simpl.
  - repeat constructor.
  - unfold JsString.length.
    destruct (Z.gtb_spec (Z.of_nat (String.length b) - Z.of_nat (String.length a)) 0)
      as [Hgt|Hle].
    + constructor; [assumption|].
      apply Forall_forall; intros x Hx.
      apply In_insertByLength in Hx as [->|Hx].
      * unfold longerFirst; lia.
      * rewrite Forall_forall in Hb; auto.
    + constructor; [now constructor|].
      constructor; [unfold longerFirst; lia|].
      eapply Forall_impl; [|exact Hb].
      unfold longerFirst; intros; lia.
Qed.

Lemma sortByLength_sorted (l : list string) :
  StronglySorted longerFirst (sortByLength l).
Proof.
  induction l; simpl; [constructor|now apply insertByLength_sorted].
Qed.

(** ** The resolver *)

(** Over a list sorted longest first, the scan answers the longest entry
    that matches. *)
Lemma scan_longest (m : table) (p : string) (byPath : bool) (e : string)
      (l : list string) :
  StronglySorted longerFirst l ->
  In e l -> hit p e = true ->
  (forall e', In e' l -> hit p e' = true ->
              (String.length e' <= String.length e)%nat) ->
  scan m p byPath l
  = Some {| endpoint := e; port := Obj.get m e; matchedByPath := byPath |}.
Proof.
  induction 1 as [|h l Hs IH Hh]; intros Hin Hhit Hmax; [contradiction|].
  simpl; destruct (hit p h) eqn:Hph.
  - assert (h = e) as ->; [|reflexivity].
    apply (prefix_same_length h e p); auto using hit_prefix.
    apply Nat.le_antisymm.
    + apply Hmax; simpl; auto.
    + destruct Hin as [->|Hin]; [lia|].
      rewrite Forall_forall in Hh; apply (Hh e Hin).
  - destruct Hin as [->|Hin]; [congruence|].
    apply IH; auto.
    intros e' He'; apply Hmax; simpl; auto.
Qed.

Lemma scan_none (m : table) (p : string) (byPath : bool) (l : list string) :
  (forall e, In e l -> hit p e = false) -> scan m p byPath l = None.
Proof.
  induction l as [|h l IH]; intros H; simpl; [reflexivity|].
  rewrite (H h) by (simpl; auto).
  apply IH; intros; apply H; simpl; auto.
Qed.

(** What the scan answers is a listed entry that matches, with its port. *)
Lemma scan_sound (m : table) (p : string) (byPath : bool) (l : list string)
      (r : Match) :
  scan m p byPath l = Some r ->
  In (endpoint r) l /\ hit p (endpoint r) = true
  /\ port r = Obj.get m (endpoint r) /\ matchedByPath r = byPath.
Proof.
  induction l as [|h l IH]; simpl; [discriminate|].
  destruct (hit p h) eqn:Hph.
  - intros [= <-]; simpl; auto.
  - intros H; destruct (IH H) as (? & ? & ? & ?); auto.
Qed.

Section Resolver.

Context {platform : Platform}.

(** Longest prefix wins: a stored endpoint that matches the request path
    and is at least as long as every other stored endpoint that matches
    is the direct-path match, whatever the referer. *)
Lemma findEndpoint_longest (m : table) (path referer e : string) :
  In e (Obj.keys m) -> hit path e = true ->
  (forall e', In e' (Obj.keys m) -> hit path e' = true ->
              (String.length e' <= String.length e)%nat) ->
  findEndpoint m path referer
  = Some {| endpoint := e; port := Obj.get m e; matchedByPath := true |}.
Proof.
  intros Hin Hhit Hmax; unfold findEndpoint.
  rewrite (scan_longest m path true e); auto using sortByLength_sorted.
  - now apply In_sortByLength.
  - intros e' He'; apply Hmax; now apply In_sortByLength.
Qed.

(** The resolver only answers stored endpoints, with their stored port. *)
Lemma findEndpoint_stored (m : table) (path referer : string) (r : Match) :
  findEndpoint m path referer = Some r ->
  exists v, Obj.get m (endpoint r) = Some v /\ port r = Some v.
Proof.
  unfold findEndpoint; intros H.
  assert (exists p b, scan m p b (sortByLength (Obj.keys m)) = Some r)
    as (p & b & Hscan).
  { destruct (scan m path true _) eqn:E1; [inversion H; subst; eauto|].
    destruct (JsString.truthy referer); [|discriminate].
    destruct (URL_new referer None); [eauto|discriminate]. }
  apply scan_sound in Hscan as (Hin & _ & Hport & _).
  apply In_sortByLength, In_keys_get in Hin as [v Hv].
  exists v; split; congruence.
Qed.

End Resolver.

(** ** The proxy server *)

Lemma or_empty_r (s : string) : JsString.or s "" = s.
Proof. now destruct s. Qed.

(** A stored endpoint that matches [p] is the first [n] code units of [p]
    for some [n]; for a given path this leaves finitely many candidates. *)
Lemma hit_substring (p e : string) :
  hit p e = true ->
  e = substring 0 (String.length e) p
  /\ (String.eqb p e = true
      \/ ((String.length e < String.length p)%nat
          /\ String.prefix (substring 0 (String.length e) p ++ "/") p = true)).
Proof.
  intros H; pose proof (prefix_substring _ _ (hit_prefix _ _ H)) as He.
  split; [assumption|].
  destruct (hit_cases _ _ H) as [->|[Hp Hlt]].
  - left; apply String.eqb_refl.
  - right; split; [assumption|]; now rewrite <- He.
Qed.

(** The candidates one by one: [n] is the length of a stored endpoint that
    matches the concrete path of the goal, [Hpre] says that the path has a
    slash right after its first [n] code units. *)
Ltac enum_lengths n Hlt Hpre :=
  first
    [ solve [simpl in Hlt; lia]
    | destruct n as [|n];
      [ first [ solve [vm_compute in Hpre; discriminate Hpre] | simpl; lia ]
      | enum_lengths n Hlt Hpre ] ].

(** No stored endpoint that matches the concrete path of the goal is longer
    than the goal says, given that the path itself is not stored. *)
Ltac bound_hit Hin Hhit Habsent :=
  let Hsub := fresh "Hsub" in
  let Heq := fresh "Heq" in
  let Hlt := fresh "Hlt" in
  let Hpre := fresh "Hpre" in
  let n := fresh "n" in
  apply hit_substring in Hhit as [Hsub [Heq|[Hlt Hpre]]];
  [ apply String.eqb_eq in Heq; subst;
    apply In_keys_get in Hin as [? Hin]; congruence
  | match type of Hpre with
    | context [String.length ?e] =>
        generalize dependent (String.length e); simpl; intros n Hlt Hpre
    end;
    enum_lengths n Hlt Hpre ].

Section ProxyFacts.

Context {platform : Platform}.

(** The forward of a direct-path match: the matched prefix is cut off the
    path, an empty rest becoming a slash. *)
Lemma proxyServer_direct (m : table) (req : Request) (u : URL) (e : string)
      (v : option Z) :
  URL_new (url req) (Some ("http://localhost:" ++ PORT)) = Some u ->
  (String.eqb (pathname u) "/gui" || JsString.startsWith (pathname u) "/gui/") = false ->
  findEndpoint m (pathname u) (refererOf req)
  = Some {| endpoint := e; port := v; matchedByPath := true |} ->
  requestable v = true ->
  let targetPath :=
    JsString.or (JsString.slice (pathname u) (JsString.length e)) "/" in
  proxyServer m req
  = Forward v targetPath
      ("http://localhost:" ++ showPort v ++ targetPath ++ search u).
Proof.
  intros Hu Hgui Hfind Hport; unfold proxyServer.
  rewrite Hu, Hgui, Hfind; cbn [matchedByPath endpoint port]; rewrite Hport.
  now rewrite or_empty_r.
Qed.

(** The forward of a referer-derived match: the path is left as it is. *)
Lemma proxyServer_referer (m : table) (req : Request) (u : URL) (e : string)
      (v : option Z) :
  URL_new (url req) (Some ("http://localhost:" ++ PORT)) = Some u ->
  (String.eqb (pathname u) "/gui" || JsString.startsWith (pathname u) "/gui/") = false ->
  findEndpoint m (pathname u) (refererOf req)
  = Some {| endpoint := e; port := v; matchedByPath := false |} ->
  requestable v = true ->
  proxyServer m req
  = Forward v (pathname u)
      ("http://localhost:" ++ showPort v ++ pathname u ++ search u).
Proof.
  intros Hu Hgui Hfind Hport; unfold proxyServer.
  rewrite Hu, Hgui, Hfind; cbn [matchedByPath endpoint port]; rewrite Hport.
  now rewrite or_empty_r.
Qed.

(** C1 (amended).  In every routing table that maps [/app] to 8080 and
    [/app/api] to 9090: if [/app/api/users] is not itself a stored
    endpoint, the request path [/app/api/users] resolves to the
    direct-path match [/app/api] with port 9090 and is forwarded as
    [/users]; if [/app/home] is not itself a stored endpoint, the request
    path [/app/home] resolves to the direct-path match [/app] with port
    8080 and is forwarded as [/home]. *)
Theorem resolve_app_and_app_api (m : table) (req : Request) (u : URL) :
  Obj.get m "/app" = Some 8080 ->
  Obj.get m "/app/api" = Some 9090 ->
  URL_new (url req) (Some ("http://localhost:" ++ PORT)) = Some u ->
  (pathname u = "/app/api/users" ->
   Obj.get m "/app/api/users" = None ->
   findEndpoint m "/app/api/users" (refererOf req)
   = Some {| endpoint := "/app/api"; port := Some 9090; matchedByPath := true |}
   /\ proxyServer m req
      = Forward (Some 9090) "/users" ("http://localhost:9090/users" ++ search u))
  /\ (pathname u = "/app/home" ->
      Obj.get m "/app/home" = None ->
      findEndpoint m "/app/home" (refererOf req)
      = Some {| endpoint := "/app"; port := Some 8080; matchedByPath := true |}
      /\ proxyServer m req
         = Forward (Some 8080) "/home" ("http://localhost:8080/home" ++ search u)).
Proof.
  intros Happ Hapi Hu; split; intros Hpath Habsent.
  - assert (findEndpoint m "/app/api/users" (refererOf req)
            = Some {| endpoint := "/app/api"; port := Some 9090;
                      matchedByPath := true |}) as Hfind.
    { rewrite <- Hapi; apply findEndpoint_longest.
      - eapply get_In_keys; eassumption.
      - reflexivity.
      - intros e' Hin Hhit; bound_hit Hin Hhit Habsent. }
    split; [assumption|].
    rewrite (proxyServer_direct m req u "/app/api" (Some 9090) Hu);
      rewrite ?Hpath; auto.
  - assert (findEndpoint m "/app/home" (refererOf req)
            = Some {| endpoint := "/app"; port := Some 8080;
                      matchedByPath := true |}) as Hfind.
    { rewrite <- Happ; apply findEndpoint_longest.
      - eapply get_In_keys; eassumption.
      - reflexivity.
      - intros e' Hin Hhit; bound_hit Hin Hhit Habsent. }
    split; [assumption|].
    rewrite (proxyServer_direct m req u "/app" (Some 8080) Hu);
      rewrite ?Hpath; auto.
Qed.

End ProxyFacts.

Section ProxyClaims.

Context {platform : Platform}.

(** C2.  A proxy request whose path is [/gui] or begins with [/gui/] is
    answered 404 Not Found, whatever the routing table holds and whatever
    the referer is: the outcome is the constant reply, not a forward, and
    depends neither on the table nor on the resolver. *)
Theorem proxy_hides_gui (m : table) (req : Request) (u : URL) :
  URL_new (url req) (Some ("http://localhost:" ++ PORT)) = Some u ->
  pathname u = "/gui" \/ JsString.startsWith (pathname u) "/gui/" = true ->
  proxyServer m req = Reply notFound.
Proof.
  intros Hu Hpath; unfold proxyServer; rewrite Hu.
  destruct Hpath as [-> | ->]; [reflexivity|].
  now rewrite orb_true_r.
Qed.

(** C7.  With [/app] mapped to 8080 as the only entry of the routing
    table, a proxy request for [/assets/style.css] whose referer is
    [http://host/app/page] (a URL whose path is [/app/page]) resolves to
    port 8080 as a referer-derived match, and is forwarded with its path
    [/assets/style.css] unchanged. *)
Theorem referer_fallback_keeps_path (req : Request) (u refUrl : URL) :
  URL_new (url req) (Some ("http://localhost:" ++ PORT)) = Some u ->
  pathname u = "/assets/style.css" ->
  referer req = Some "http://host/app/page" ->
  URL_new "http://host/app/page" None = Some refUrl ->
  pathname refUrl = "/app/page" ->
  findEndpoint [("/app", 8080)] "/assets/style.css" "http://host/app/page"
  = Some {| endpoint := "/app"; port := Some 8080; matchedByPath := false |}
  /\ proxyServer [("/app", 8080)] req
     = Forward (Some 8080) "/assets/style.css"
         ("http://localhost:8080/assets/style.css" ++ search u).
Proof.
  intros Hu Hpath Href Hru Hrpath.
  assert (findEndpoint [("/app", 8080)] "/assets/style.css" "http://host/app/page"
          = Some {| endpoint := "/app"; port := Some 8080;
                    matchedByPath := false |}) as Hfind.
  { unfold findEndpoint; simpl scan.
    change (JsString.truthy "http://host/app/page") with true; cbv iota.
    rewrite Hru, Hrpath; reflexivity. }
  split; [assumption|].
  assert (refererOf req = "http://host/app/page") as Hreq
      by (unfold refererOf; rewrite Href; reflexivity).
  rewrite (proxyServer_referer [("/app", 8080)] req u "/app" (Some 8080) Hu);
    rewrite ?Hpath, ?Hreq; auto.
Qed.

End ProxyClaims.

(** ** The admin server *)

(** Reading a property throws on [null] only. *)
Lemma prop_defined (data : json) (k : string) :
  data <> JNull -> exists v, Js.prop data k = Ok v.
Proof. destruct data; simpl; eauto; congruence. Qed.

Lemma invalid_inline (e : string) :
  negb (endpointRe e) || String.eqb e "/gui" = negb (isValidEndpoint e).
Proof.
  unfold isValidEndpoint; destruct (endpointRe e), (String.eqb e "/gui"); reflexivity.
Qed.

Lemma routingKey_not_method (m : table) :
  routingTable m -> Obj.get m "hasOwnProperty" = None.
Proof.
  induction 1 as [|[k v] m Hk _ IH]; simpl in *; [reflexivity|].
  destruct (String.eqb_spec k "hasOwnProperty") as [->|_]; [discriminate|assumption].
Qed.

Section Revisions.

Context {platform : Platform}.

(** The update handler of [index.js] in the common form. *)
Lemma IndexJs_update_common (req : Request) (w : World) :
  IndexJs.update req w
  = updateWith IndexJs.endpointOf "Invalid new endpoint" req w.
Proof.
  assert (forall data w', IndexJs.add data w' = addWith IndexJs.endpointOf data w') as Hadd.
  { intros data w'; unfold IndexJs.add, addWith, IndexJs.endpointOf, bind, lift.
    destruct (Js.prop data "endpoint") as [v|]; simpl; [|reflexivity].
    destruct (IndexJs.optTrimLower v) as [e0|]; simpl; [|reflexivity].
    destruct (absent e0); [reflexivity|].
    rewrite invalid_inline; now destruct (isValidEndpoint _). }
  assert (forall data w', IndexJs.delete data w' = deleteWith IndexJs.endpointOf data w') as Hdel.
  { intros data w'; unfold IndexJs.delete, deleteWith, IndexJs.endpointOf, bind, lift.
    destruct (Js.prop data "endpoint") as [v|]; simpl; [|reflexivity].
    destruct (IndexJs.optTrimLower v) as [e0|]; simpl; [|reflexivity].
    now destruct (absent e0). }
  assert (forall data w', IndexJs.rename data w'
                          = renameWith IndexJs.endpointOf "Invalid new endpoint" data w') as Hren.
  { intros data w'; unfold IndexJs.rename, renameWith, IndexJs.endpointOf, bind, lift.
    destruct (Js.prop data "oldEndpoint") as [v|]; simpl; [|reflexivity].
    destruct (IndexJs.optTrimLower v) as [a0|]; simpl; [|reflexivity].
    destruct (Js.prop data "newEndpoint") as [v'|]; simpl; [|reflexivity].
    destruct (IndexJs.optTrimLower v') as [b0|]; simpl; [|reflexivity].
    destruct (absent a0), (absent b0); simpl; try reflexivity.
    rewrite invalid_inline; now destruct (isValidEndpoint _). }
  unfold IndexJs.update, updateWith, tryCatch, bind.
  destruct (lift _ w) as [[data| |] w1]; try reflexivity.
  destruct (actionIs data "add" w1) as [[[|]| |] w2]; try reflexivity.
  { now rewrite Hadd. }
  destruct (actionIs data "delete" w2) as [[[|]| |] w3]; try reflexivity.
  { now rewrite Hdel. }
  destruct (actionIs data "rename" w3) as [[[|]| |] w4]; try reflexivity.
  now rewrite Hren.
Qed.

Lemma canonicalizeEndpoint_truthy (v : result (option json)) (e : string) :
  rbind v Refactored.canonicalizeEndpoint = Ok (Some e) ->
  absent (Some e) = false.
Proof.
  destruct v as [v|]; simpl; [|discriminate].
  unfold Refactored.canonicalizeEndpoint.
  assert (forall r : result string,
             rbind r (fun s =>
                        let s := JsString.toLowerCase (JsString.trim s) in
                        if negb (JsString.truthy s) then Ok None
                        else Ok (Some (withSlash s))) = Ok (Some e) ->
             negb (JsString.truthy e) = false) as Hr.
  { intros [s|]; simpl; [|discriminate].
    destruct (JsString.truthy _) eqn:Ht; simpl; [|discriminate].
    intros [= <-]; unfold withSlash.
    destruct (JsString.startsWith _ _); simpl; [now rewrite Ht|reflexivity]. }
  destruct v as [[]|]; try discriminate; apply Hr.
Qed.

(** The update handler of the refactored revision in the common form. *)
Lemma Refactored_update_common (req : Request) (w : World) :
  Refactored.update req w
  = updateWith Refactored.canonicalizeEndpoint "Invalid endpoint" req w.
Proof.
  assert (forall data w', Refactored.add data w'
                          = addWith Refactored.canonicalizeEndpoint data w') as Hadd.
  { intros data w'; unfold Refactored.add, addWith, bind, lift.
    destruct (rbind _ _) as [[e|]|] eqn:E; try reflexivity.
    rewrite (canonicalizeEndpoint_truthy _ _ E); simpl.
    now destruct (isValidEndpoint e). }
  assert (forall data w', Refactored.delete data w'
                          = deleteWith Refactored.canonicalizeEndpoint data w') as Hdel.
  { intros data w'; unfold Refactored.delete, deleteWith, bind, lift.
    destruct (rbind _ _) as [[e|]|] eqn:E; try reflexivity.
    now rewrite (canonicalizeEndpoint_truthy _ _ E). }
  assert (forall data w', Refactored.rename data w'
                          = renameWith Refactored.canonicalizeEndpoint "Invalid endpoint" data w') as Hren.
  { intros data w'; unfold Refactored.rename, renameWith, bind, lift.
    destruct (rbind (Js.prop data "oldEndpoint") _) as [a|] eqn:Ea; [|reflexivity].
    destruct (rbind (Js.prop data "newEndpoint") _) as [b|] eqn:Eb; [|reflexivity].
    destruct a as [a|], b as [b|]; try reflexivity.
    - rewrite (canonicalizeEndpoint_truthy _ _ Ea), (canonicalizeEndpoint_truthy _ _ Eb); simpl.
      now destruct (isValidEndpoint b).
    - now rewrite orb_true_r. }
  unfold Refactored.update, updateWith, tryCatch, bind.
  destruct (lift _ w) as [[data| |] w1]; try reflexivity.
  destruct (actionIs data "add" w1) as [[[|]| |] w2]; try reflexivity.
  { now rewrite Hadd. }
  destruct (actionIs data "delete" w2) as [[[|]| |] w3]; try reflexivity.
  { now rewrite Hdel. }
  destruct (actionIs data "rename" w3) as [[[|]| |] w4]; try reflexivity.
  now rewrite Hren.
Qed.

End Revisions.

(** ** Valid endpoints are canonical *)

Lemma endpointChar_plain (c : ascii) :
  endpointChar c = true \/ c = "/"%char ->
  JsString.isWhiteSpace c = false /\ JsString.isUpper c = false.
Proof.
  intros [H| ->]; [|split; reflexivity].
  revert H; destruct c as [[] [] [] [] [] [] [] []]; vm_compute;
    intros H; first [discriminate H | split; reflexivity].
Qed.

Lemma trim_plain (s : string) : plainString s -> JsString.trim s = s.
Proof.
  intros H; unfold JsString.trim.
  assert (JsString.trimStart s = s) as ->
      by (destruct s as [|c s]; simpl in *; [reflexivity|now destruct H as [-> _]]).
  induction s as [|c s IH]; simpl in *; [reflexivity|].
  destruct H as (Hws & _ & Hs); rewrite (IH Hs), Hws; now destruct s.
Qed.

Lemma toLowerCase_plain (s : string) : plainString s -> JsString.toLowerCase s = s.
Proof.
  induction s as [|c s IH]; simpl; [reflexivity|].
  intros (_ & Hup & Hs); unfold JsString.lowerChar; now rewrite Hup, IH.
Qed.

Lemma allEndpointChars_plain (s : string) :
  allEndpointChars s = true -> plainString s.
Proof.
  induction s as [|c s IH]; simpl; [trivial|].
  intros H; apply andb_true_iff in H as [Hc Hs].
  destruct (endpointChar_plain c (or_introl Hc)); auto.
Qed.

Lemma endpointRe_shape (e : string) :
  endpointRe e = true ->
  exists c rest, e = String "/" (String c rest) /\ allEndpointChars (String c rest) = true.
Proof.
  destruct e as [|a [|c rest]]; try discriminate.
  - unfold endpointRe; destruct a as [[] [] [] [] [] [] [] []]; discriminate.
  - unfold endpointRe.
    destruct (Ascii.eqb_spec a "/"%char) as [->|Hne]; [eauto|].
    destruct a as [[] [] [] [] [] [] [] []]; try discriminate; congruence.
Qed.

Lemma isValidEndpoint_plain (e : string) :
  isValidEndpoint e = true ->
  plainString e /\ JsString.startsWith e "/" = true /\ JsString.truthy e = true.
Proof.
  unfold isValidEndpoint; intros H; apply andb_true_iff in H as [H _].
  apply endpointRe_shape in H as (c & rest & -> & Hall).
  split; [|split; reflexivity].
  split; [reflexivity|split; [reflexivity|]].
  now apply allEndpointChars_plain.
Qed.

Lemma withSlash_valid (e : string) : isValidEndpoint e = true -> withSlash e = e.
Proof.
  intros H; destruct (isValidEndpoint_plain e H) as (_ & Hs & _).
  unfold withSlash; now rewrite Hs.
Qed.

(** A valid endpoint passes through the canonicalisation of either revision
    unchanged. *)
Lemma endpointOf_valid (e : string) :
  isValidEndpoint e = true -> IndexJs.endpointOf (Some (JStr e)) = Ok (Some e).
Proof.
  intros H; destruct (isValidEndpoint_plain e H) as (Hp & _ & Ht).
  unfold IndexJs.endpointOf; simpl.
  rewrite trim_plain, toLowerCase_plain, Ht by (rewrite ?trim_plain; assumption).
  simpl; now rewrite withSlash_valid.
Qed.

Lemma canonicalizeEndpoint_valid (e : string) :
  isValidEndpoint e = true ->
  Refactored.canonicalizeEndpoint (Some (JStr e)) = Ok (Some e).
Proof.
  intros H; destruct (isValidEndpoint_plain e H) as (Hp & _ & Ht).
  unfold Refactored.canonicalizeEndpoint; simpl.
  rewrite trim_plain, toLowerCase_plain, Ht by (rewrite ?trim_plain; assumption).
  simpl; now rewrite withSlash_valid.
Qed.

(** ** What the update handler does, branch by branch *)

Section UpdateFacts.

Variable canon : option json -> result (option string).
Variable invalidNew : string.
Variables (req : Request) (data : json) (w : World).
Hypothesis Hbody : body req = Some data.

Let ok (m : table) : Outcome * World :=
  (Reply (bare 200 "OK"), {| mappings := m; saved := m :: saved w |}).

Ltac enter Hact :=
  unfold run, updateWith, tryCatch, bind, lift, actionIs, ret;
  rewrite Hbody, Hact; simpl.

(** An action that is none of the three falls through to [saveMappings]. *)
Lemma update_other (a : option json) :
  Js.prop data "action" = Ok a ->
  Js.strictEq a "add" = false ->
  Js.strictEq a "delete" = false ->
  Js.strictEq a "rename" = false ->
  run (updateWith canon invalidNew req) w = ok (mappings w).
Proof.
  intros Hact Hadd Hdel Hren; enter Hact.
  now rewrite Hadd, Hdel, Hren.
Qed.

(** A body on which [data.action] throws is answered as invalid JSON. *)
Lemma update_throws :
  Js.prop data "action" = Throw ->
  run (updateWith canon invalidNew req) w = (Reply (bare 400 "Invalid JSON"), w).
Proof. intros Hact; now enter Hact. Qed.

Lemma update_add (e : string) (r : option Z) :
  Js.prop data "action" = Ok (Some (JStr "add")) ->
  rbind (Js.prop data "endpoint") canon = Ok (Some e) ->
  isValidEndpoint e = true ->
  rbind (Js.prop data "port") Js.parseInt = Ok r ->
  run (updateWith canon invalidNew req) w
  = match r with
    | Some p =>
        if (p <? 1) || (p >? 65535)
        then (Reply (plain 400 "Invalid port"), w)
        else ok (Obj.set (mappings w) e p)
    | None => (Reply (plain 400 "Invalid port"), w)
    end.
Proof.
  intros Hact He Hv Hp; enter Hact.
  unfold addWith, addPort, bind, lift, getMappings, putMappings.
  rewrite He, Hv, Hp.
  destruct r as [p|]; [|reflexivity].
  now destruct ((p <? 1) || (p >? 65535)).
Qed.

Lemma update_add_invalid_endpoint (e : option string) :
  Js.prop data "action" = Ok (Some (JStr "add")) ->
  rbind (Js.prop data "endpoint") canon = Ok e ->
  match e with Some e => isValidEndpoint e = false | None => True end ->
  run (updateWith canon invalidNew req) w
  = (Reply (plain 400 "Invalid endpoint"), w).
Proof.
  intros Hact He Hv; enter Hact.
  unfold addWith, bind, lift; rewrite He.
  destruct e as [e|]; [now rewrite Hv|reflexivity].
Qed.

Lemma update_rename (a b : string) :
  Js.prop data "action" = Ok (Some (JStr "rename")) ->
  rbind (Js.prop data "oldEndpoint") canon = Ok (Some a) ->
  rbind (Js.prop data "newEndpoint") canon = Ok (Some b) ->
  isValidEndpoint b = true ->
  Obj.get (mappings w) "hasOwnProperty" = None ->
  run (updateWith canon invalidNew req) w
  = match Obj.get (mappings w) a with
    | Some v => ok (Obj.delete (Obj.set (mappings w) b v) a)
    | None => (Reply (plain 404 "Old endpoint not found"), w)
    end.
Proof.
  intros Hact Ha Hb Hv Hm; enter Hact.
  unfold renameWith, moveEndpoint, bind, lift, getMappings, putMappings,
    Obj.hasOwnProperty.
  rewrite Ha, Hb, Hv, Hm.
  now destruct (Obj.get (mappings w) a).
Qed.

End UpdateFacts.

(** ** Ports *)

Lemma allFrom_spec (f : Z -> bool) (n : nat) :
  forall lo, allFrom f lo n = true ->
             forall z, lo <= z < lo + Z.of_nat n -> f z = true.
Proof.
  induction n as [|n IH]; intros lo H z Hz; [lia|].
  cbn [allFrom] in H; apply andb_true_iff in H as [Hlo H].
  destruct (Z.eq_dec z lo) as [->|Hne]; [assumption|].
  apply (IH (lo + 1)); [assumption|lia].
Qed.

(** The decimal numeral of a port reads back as that port (checked port by
    port). *)
Lemma parseInt_port (p : Z) :
  1 <= p <= 65535 -> Js.parseIntString (Js.Number_toString p) = Some p.
Proof.
  intros Hp.
  pose (f := fun z => match Js.parseIntString (Js.Number_toString z) with
                      | Some q => q =? z
                      | None => false
                      end).
  assert (allFrom f 1 (Z.to_nat 65535) = true) as Hall by (vm_compute; reflexivity).
  assert (f p = true) as Hf.
  { apply (allFrom_spec f _ 1 Hall); rewrite Z2Nat.id; lia. }
  unfold f in Hf; destruct (Js.parseIntString _) as [q|]; [|discriminate].
  now apply Z.eqb_eq in Hf as ->.
Qed.

Lemma parseInt_port_field (data : json) (v : json) (p : Z) :
  Js.prop data "port" = Ok (Some v) ->
  v = Js.JInt p \/ v = JStr (Js.Number_toString p) ->
  1 <= p <= 65535 ->
  rbind (Js.prop data "port") Js.parseInt = Ok (Some p).
Proof.
  intros -> Hv Hp; unfold Js.parseInt; simpl.
  destruct Hv as [-> | ->]; simpl; now rewrite parseInt_port.
Qed.

(** ** The routing-table invariant *)

Lemma routingTable_set (m : table) (e : string) (p : Z) :
  routingTable m -> JsString.startsWith e "/" = true -> routingTable (Obj.set m e p).
Proof.
  unfold routingTable; intros Hm He.
  induction Hm as [|[k v] m Hk Hm IH]; simpl.
  - repeat constructor; assumption.
  - destruct (String.eqb k e); constructor; auto.
Qed.

Lemma routingTable_delete (m : table) (e : string) :
  routingTable m -> routingTable (Obj.delete m e).
Proof.
  unfold routingTable, Obj.delete; intros Hm.
  apply Forall_forall; intros kv Hin.
  apply filter_In in Hin as [Hin _].
  rewrite Forall_forall in Hm; auto.
Qed.

(** ** The admin server, claim by claim *)

Section AdminClaims.

Context {platform : Platform}.

Lemma IndexJs_route (req : Request) (data : json) (w : World) :
  IndexJs.posted req data ->
  body req = Some data
  /\ run (IndexJs.guiServer req) w
     = run (updateWith IndexJs.endpointOf "Invalid new endpoint" req) w.
Proof.
  intros (Hm & Hb & u & Hu & Hp); split; [assumption|].
  unfold run at 1, IndexJs.guiServer, bind, lift; rewrite Hu, Hm.
  destruct Hp as [-> | ->]; simpl; now rewrite IndexJs_update_common.
Qed.

Lemma Refactored_route (req : Request) (data : json) (w : World) :
  Refactored.posted req data ->
  body req = Some data
  /\ run (Refactored.guiServer req) w
     = run (updateWith Refactored.canonicalizeEndpoint "Invalid endpoint" req) w.
Proof.
  intros (Hm & Hb & u & Hu & Hp); split; [assumption|].
  unfold run at 1, Refactored.guiServer, bind, lift; rewrite Hu, Hm, Hp.
  simpl; now rewrite Refactored_update_common.
Qed.

(** X24.  The port check of an add request, as the code makes it: when the
    endpoint canonicalises to a valid endpoint and [parseInt(data.port)] is
    [NaN] or an integer outside 1-65535, the answer is 400 [Invalid port];
    the routing table is unchanged and nothing is saved. *)
Theorem add_port_out_of_range (w : World) (req : Request) (data : json)
        (e : string) (r : option Z) :
  Js.prop data "action" = Ok (Some (JStr "add")) ->
  isValidEndpoint e = true ->
  rbind (Js.prop data "port") Js.parseInt = Ok r ->
  match r with Some p => p < 1 \/ 65535 < p | None => True end ->
  (IndexJs.posted req data ->
   rbind (Js.prop data "endpoint") IndexJs.endpointOf = Ok (Some e) ->
   run (IndexJs.guiServer req) w = (Reply (plain 400 "Invalid port"), w))
  /\ (Refactored.posted req data ->
      rbind (Js.prop data "endpoint") Refactored.canonicalizeEndpoint = Ok (Some e) ->
      run (Refactored.guiServer req) w = (Reply (plain 400 "Invalid port"), w)).
Proof.
  intros Hact Hv Hport Hr.
  assert (match r with
          | Some p => if (p <? 1) || (p >? 65535)
                      then (Reply (plain 400 "Invalid port"), w)
                      else (Reply (bare 200 "OK"),
                            {| mappings := Obj.set (mappings w) e p;
                               saved := Obj.set (mappings w) e p :: saved w |})
          | None => (Reply (plain 400 "Invalid port"), w)
          end = (Reply (plain 400 "Invalid port"), w)) as Hout.
  { destruct r as [p|]; [|reflexivity].
    destruct (Z.ltb_spec p 1), (Z.gtb_spec p 65535); simpl; try reflexivity; lia. }
  split; intros Hpost He.
  - destruct (IndexJs_route req data w Hpost) as [Hb ->].
    now rewrite (update_add _ _ req data w Hb e r).
  - destruct (Refactored_route req data w Hpost) as [Hb ->].
    now rewrite (update_add _ _ req data w Hb e r).
Qed.

(** C4 (amended).  A rename request whose new endpoint canonicalises to a
    valid endpoint and whose canonicalised old endpoint is absent from the
    routing table is answered 404 [Old endpoint not found]; the routing
    table is unchanged and nothing is saved. *)
Theorem rename_missing_source (w : World) (req : Request) (data : json)
        (a b : string) :
  Js.prop data "action" = Ok (Some (JStr "rename")) ->
  isValidEndpoint b = true ->
  routingTable (mappings w) ->
  Obj.get (mappings w) a = None ->
  (IndexJs.posted req data ->
   rbind (Js.prop data "oldEndpoint") IndexJs.endpointOf = Ok (Some a) ->
   rbind (Js.prop data "newEndpoint") IndexJs.endpointOf = Ok (Some b) ->
   run (IndexJs.guiServer req) w = (Reply (plain 404 "Old endpoint not found"), w))
  /\ (Refactored.posted req data ->
      rbind (Js.prop data "oldEndpoint") Refactored.canonicalizeEndpoint = Ok (Some a) ->
      rbind (Js.prop data "newEndpoint") Refactored.canonicalizeEndpoint = Ok (Some b) ->
      run (Refactored.guiServer req) w = (Reply (plain 404 "Old endpoint not found"), w)).
Proof.
  intros Hact Hv Hm Habsent.
  apply routingKey_not_method in Hm.
  split; intros Hpost Ha Hb.
  - destruct (IndexJs_route req data w Hpost) as [Hbody ->].
    now rewrite (update_rename _ _ req data w Hbody a b), Habsent.
  - destruct (Refactored_route req data w Hpost) as [Hbody ->].
    now rewrite (update_rename _ _ req data w Hbody a b), Habsent.
Qed.

(** C5.  For a valid endpoint [e] and a port [p] in 1-65535, given as a
    number or as its decimal numeral, an add request for [e] and [p] is
    acknowledged, and a lookup of [e] in the routing table then answers
    [p]. *)
Theorem add_then_get (w : World) (req : Request) (data : json)
        (e : string) (p : Z) (portField : json) :
  Js.prop data "action" = Ok (Some (JStr "add")) ->
  Js.prop data "endpoint" = Ok (Some (JStr e)) ->
  isValidEndpoint e = true ->
  Js.prop data "port" = Ok (Some portField) ->
  portField = Js.JInt p \/ portField = JStr (Js.Number_toString p) ->
  1 <= p <= 65535 ->
  (IndexJs.posted req data ->
   exists w', run (IndexJs.guiServer req) w = (Reply (bare 200 "OK"), w')
              /\ Obj.get (mappings w') e = Some p)
  /\ (Refactored.posted req data ->
      exists w', run (Refactored.guiServer req) w = (Reply (bare 200 "OK"), w')
                 /\ Obj.get (mappings w') e = Some p).
Proof.
  intros Hact He Hv Hport Hfield Hp.
  pose proof (parseInt_port_field data portField p Hport Hfield Hp) as Hparse.
  assert ((p <? 1) || (p >? 65535) = false) as Hrange.
  { destruct (Z.ltb_spec p 1), (Z.gtb_spec p 65535); simpl; try reflexivity; lia. }
  split; intros Hpost; exists (updated w (Obj.set (mappings w) e p));
    (split; [|apply get_set_same]).
  - destruct (IndexJs_route req data w Hpost) as [Hb ->].
    rewrite (update_add _ _ req data w Hb e (Some p)), ?Hrange; auto.
    rewrite He; simpl; now apply endpointOf_valid.
  - destruct (Refactored_route req data w Hpost) as [Hb ->].
    rewrite (update_add _ _ req data w Hb e (Some p)), ?Hrange; auto.
    rewrite He; now apply canonicalizeEndpoint_valid.
Qed.

(** C6.  For valid endpoints [a <> b] with [a] mapped to [p] in the
    routing table, a rename request from [a] to [b] is acknowledged;
    afterwards a lookup of [a] answers none and a lookup of [b] answers
    [p]. *)
Theorem rename_moves_port (w : World) (req : Request) (data : json)
        (a b : string) (p : Z) :
  Js.prop data "action" = Ok (Some (JStr "rename")) ->
  Js.prop data "oldEndpoint" = Ok (Some (JStr a)) ->
  Js.prop data "newEndpoint" = Ok (Some (JStr b)) ->
  isValidEndpoint a = true ->
  isValidEndpoint b = true ->
  a <> b ->
  routingTable (mappings w) ->
  Obj.get (mappings w) a = Some p ->
  (IndexJs.posted req data ->
   exists w', run (IndexJs.guiServer req) w = (Reply (bare 200 "OK"), w')
              /\ Obj.get (mappings w') a = None
              /\ Obj.get (mappings w') b = Some p)
  /\ (Refactored.posted req data ->
      exists w', run (Refactored.guiServer req) w = (Reply (bare 200 "OK"), w')
                 /\ Obj.get (mappings w') a = None
                 /\ Obj.get (mappings w') b = Some p).
Proof.
  intros Hact Hold Hnew Ha Hb Hab Hm Hget.
  apply routingKey_not_method in Hm.
  assert (Obj.get (Obj.delete (Obj.set (mappings w) b p) a) a = None
          /\ Obj.get (Obj.delete (Obj.set (mappings w) b p) a) b = Some p) as Hafter.
  { split; [apply get_delete_same|].
    rewrite get_delete_other by assumption; apply get_set_same. }
  split; intros Hpost;
    exists (updated w (Obj.delete (Obj.set (mappings w) b p) a));
    (split; [|exact Hafter]).
  - destruct (IndexJs_route req data w Hpost) as [Hbody ->].
    rewrite (update_rename _ _ req data w Hbody a b), Hget; auto.
    + rewrite Hold; now apply endpointOf_valid.
    + rewrite Hnew; now apply endpointOf_valid.
  - destruct (Refactored_route req data w Hpost) as [Hbody ->].
    rewrite (update_rename _ _ req data w Hbody a b), Hget; auto.
    + rewrite Hold; now apply canonicalizeEndpoint_valid.
    + rewrite Hnew; now apply canonicalizeEndpoint_valid.
Qed.

(** C8 (amended).  The admin server of [index.js] serves the
    administrative page (200, [text/html]) at [/] and at [/gui], for GET
    as for every method; the admin server of the refactored revision
    serves it at [/] only and answers [/gui] with 404 Not Found. *)
Theorem admin_page_routes (w : World) (req : Request) (u : URL) :
  URL_new (url req) (Some ("http://localhost:" ++ GUI_PORT)) = Some u ->
  (pathname u = "/" \/ pathname u = "/gui" ->
   run (IndexJs.guiServer req) w = (Reply page, w))
  /\ (pathname u = "/" -> run (Refactored.guiServer req) w = (Reply page, w))
  /\ (pathname u = "/gui" ->
      run (Refactored.guiServer req) w = (Reply notFound, w)).
Proof.
  intros Hu; repeat split.
  - intros Hp; unfold run, IndexJs.guiServer, bind, lift; rewrite Hu.
    now destruct Hp as [-> | ->].
  - intros Hp; unfold run, Refactored.guiServer, bind, lift; now rewrite Hu, Hp.
  - intros Hp; unfold run, Refactored.guiServer, bind, lift; rewrite Hu, Hp; simpl.
    now destruct (String.eqb (method req) "GET"), (String.eqb (method req) "POST").
Qed.

(** C9.  For a valid endpoint [a] present in the routing table, a rename
    request whose old and new endpoint both canonicalise to [a] is
    acknowledged with 200 OK and leaves the table without [a]: the copy
    writes the value [a] already has, the delete then removes the one
    key, and the table so reduced is saved. *)
Theorem rename_onto_itself_deletes (w : World) (req : Request) (data : json)
        (a : string) (p : Z) :
  Js.prop data "action" = Ok (Some (JStr "rename")) ->
  isValidEndpoint a = true ->
  routingTable (mappings w) ->
  Obj.get (mappings w) a = Some p ->
  (IndexJs.posted req data ->
   rbind (Js.prop data "oldEndpoint") IndexJs.endpointOf = Ok (Some a) ->
   rbind (Js.prop data "newEndpoint") IndexJs.endpointOf = Ok (Some a) ->
   run (IndexJs.guiServer req) w
   = (Reply (bare 200 "OK"), updated w (Obj.delete (mappings w) a)))
  /\ (Refactored.posted req data ->
      rbind (Js.prop data "oldEndpoint") Refactored.canonicalizeEndpoint = Ok (Some a) ->
      rbind (Js.prop data "newEndpoint") Refactored.canonicalizeEndpoint = Ok (Some a) ->
      run (Refactored.guiServer req) w
      = (Reply (bare 200 "OK"), updated w (Obj.delete (mappings w) a)))
  /\ Obj.get (Obj.delete (mappings w) a) a = None.
Proof.
  intros Hact Hv Hm Hget.
  apply routingKey_not_method in Hm.
  repeat split; [intros Hpost Hold Hnew ..|apply get_delete_same].
  - destruct (IndexJs_route req data w Hpost) as [Hbody ->].
    rewrite (update_rename _ _ req data w Hbody a a), Hget; auto.
    now rewrite set_same_value.
  - destruct (Refactored_route req data w Hpost) as [Hbody ->].
    rewrite (update_rename _ _ req data w Hbody a a), Hget; auto.
    now rewrite set_same_value.
Qed.

(** C10 (amended).  For a body that parses to a value other than [null]
    and whose action is none of ["add"], ["delete"], ["rename"] (an object
    with another action or with none, a number, a string, a boolean, an
    array), the update handler answers 200 OK, leaves the routing table
    unchanged and still writes the table to the mappings file. *)
Theorem unknown_action_still_saves (w : World) (req : Request) (data : json) :
  data <> JNull ->
  Js.prop data "action" <> Ok (Some (JStr "add")) ->
  Js.prop data "action" <> Ok (Some (JStr "delete")) ->
  Js.prop data "action" <> Ok (Some (JStr "rename")) ->
  (IndexJs.posted req data ->
   run (IndexJs.guiServer req) w = (Reply (bare 200 "OK"), updated w (mappings w)))
  /\ (Refactored.posted req data ->
      run (Refactored.guiServer req) w
      = (Reply (bare 200 "OK"), updated w (mappings w))).
Proof.
  intros Hnull Hadd Hdel Hren.
  destruct (prop_defined data "action" Hnull) as [a Hact].
  rewrite Hact in Hadd, Hdel, Hren.
  assert (forall s, Ok a <> Ok (Some (JStr s)) -> Js.strictEq a s = false) as Hneq.
  { intros s Hs; destruct a as [[]|]; try reflexivity; simpl.
    apply String.eqb_neq; congruence. }
  split; intros Hpost.
  - destruct (IndexJs_route req data w Hpost) as [Hbody ->].
    now rewrite (update_other _ _ req data w Hbody a) by auto.
  - destruct (Refactored_route req data w Hpost) as [Hbody ->].
    now rewrite (update_other _ _ req data w Hbody a) by auto.
Qed.

End AdminClaims.

(** ** The admin server keeps the keys of the table endpoints *)

Lemma updateWith_keeps_routingTable
      (canon : option json -> result (option string)) (invalidNew : string)
      (req : Request) (w : World) :
  routingTable (mappings w) ->
  routingTable (mappings (snd (run (updateWith canon invalidNew req) w))).
Proof.
  intros Hm.
  assert (forall e, isValidEndpoint e = true -> JsString.startsWith e "/" = true)
    as Hslash by (intros e He; apply (isValidEndpoint_plain e He)).
  unfold run, updateWith, tryCatch, bind, lift, actionIs, ret.
  destruct (body req) as [data|]; simpl; [|assumption].
  destruct (Js.prop data "action") as [a|]; simpl; [|assumption].
  destruct (Js.strictEq a "add").
  { unfold addWith, addPort, bind, lift, getMappings, putMappings.
    destruct (rbind (Js.prop data "endpoint") canon) as [[e|]|]; simpl; auto.
    destruct (isValidEndpoint e) eqn:Hv; simpl; auto.
    destruct (rbind (Js.prop data "port") Js.parseInt) as [[p|]|]; simpl; auto.
    destruct ((p <? 1) || (p >? 65535)); simpl; auto using routingTable_set. }
  destruct (Js.strictEq a "delete").
  { unfold deleteWith, bind, lift, getMappings, putMappings.
    destruct (rbind (Js.prop data "endpoint") canon) as [[e|]|]; simpl;
      auto using routingTable_delete. }
  destruct (Js.strictEq a "rename"); simpl; auto.
  unfold renameWith, moveEndpoint, bind, lift, getMappings, putMappings,
    Obj.hasOwnProperty.
  destruct (rbind (Js.prop data "oldEndpoint") canon) as [o|]; simpl; auto.
  destruct (rbind (Js.prop data "newEndpoint") canon) as [n|]; simpl; auto.
  destruct o as [o|], n as [n|]; simpl; auto.
  destruct (isValidEndpoint n) eqn:Hv; simpl; auto.
  destruct (Obj.get (mappings w) "hasOwnProperty"); simpl; auto.
  destruct (Obj.get (mappings w) o); simpl;
    auto using routingTable_delete, routingTable_set.
Qed.

(** X22.  Whatever the request, the admin server of either revision leaves
    a routing table whose keys begin with a slash in that state. *)
Theorem guiServer_keeps_routingTable {platform : Platform}
        (req : Request) (w : World) :
  routingTable (mappings w) ->
  routingTable (mappings (snd (run (IndexJs.guiServer req) w)))
  /\ routingTable (mappings (snd (run (Refactored.guiServer req) w))).
Proof.
  intros Hm; split.
  - pose proof (updateWith_keeps_routingTable IndexJs.endpointOf
                  "Invalid new endpoint" req w Hm) as Hup.
    unfold run in Hup |- *; rewrite <- IndexJs_update_common in Hup.
    unfold IndexJs.guiServer, getMappingsWithStatus, bind, lift, getMappings, ret.
    destruct (URL_new _ _) as [u|]; simpl; [|assumption].
    repeat (match goal with
            | |- context [if ?c then _ else _] => destruct c; simpl
            end; try assumption).
  - pose proof (updateWith_keeps_routingTable Refactored.canonicalizeEndpoint
                  "Invalid endpoint" req w Hm) as Hup.
    unfold run in Hup |- *; rewrite <- Refactored_update_common in Hup.
    unfold Refactored.guiServer, getMappingsWithStatus, bind, lift, getMappings, ret.
    destruct (URL_new _ _) as [u|]; simpl; [|assumption].
    repeat (match goal with
            | |- context [if ?c then _ else _] => destruct c; simpl
            end; try assumption).
Qed.

(** * The claims on concrete requests, run on the reference platform *)

Import Examples.

Lemma posted_IndexJs (data : json) : @IndexJs.posted Plain.platform (post data) data.
Proof.
  repeat split; exists (at_ "/update"); split; [reflexivity|left; reflexivity].
Defined.

Lemma posted_Refactored (data : json) :
  @Refactored.posted Plain.platform (post data) data.
Proof.
  repeat split; exists (at_ "/update"); split; reflexivity.
Defined.

(** C1, as stated, fails: a table that maps [/app] to 8080 and [/app/api]
    to 9090 and also holds [/app/api/users] resolves the request path
    [/app/api/users] to that longer endpoint, port 7000, and forwards
    [/]. *)
Lemma resolve_longer_endpoint_wins :
  Obj.get threeApps "/app" = Some 8080
  /\ Obj.get threeApps "/app/api" = Some 9090
  /\ @findEndpoint Plain.platform threeApps "/app/api/users" ""
     = Some {| endpoint := "/app/api/users"; port := Some 7000;
               matchedByPath := true |}
  /\ @proxyServer Plain.platform threeApps (fetch "/app/api/users" None)
     = Forward (Some 7000) "/" "http://localhost:7000/".
Proof. repeat split. Qed.

Lemma resolve_app_and_app_api_witness :
  @proxyServer Plain.platform twoApps (fetch "/app/api/users" None)
  = Forward (Some 9090) "/users" "http://localhost:9090/users"
  /\ @proxyServer Plain.platform twoApps (fetch "/app/home" None)
     = Forward (Some 8080) "/home" "http://localhost:8080/home".
Proof.
  split.
  - apply (@resolve_app_and_app_api Plain.platform twoApps
             (fetch "/app/api/users" None) (at_ "/app/api/users"));
      reflexivity.
  - apply (@resolve_app_and_app_api Plain.platform twoApps
             (fetch "/app/home" None) (at_ "/app/home"));
      reflexivity.
Defined.

Lemma proxy_hides_gui_witness :
  @proxyServer Plain.platform [("/gui", 9000)] (fetch "/gui/panel" None)
  = Reply notFound
  /\ @proxyServer Plain.platform [("/gui", 9000)] (fetch "/gui" None)
     = Reply notFound.
Proof.
  split.
  - apply (@proxy_hides_gui Plain.platform _ _ (at_ "/gui/panel"));
      [reflexivity|right; reflexivity].
  - apply (@proxy_hides_gui Plain.platform _ _ (at_ "/gui"));
      [reflexivity|left; reflexivity].
Defined.

(** C3 (code bug).  A port field that does not denote an integer in
    1-65535 is not always refused: [parseInt(data.port)] reads the leading
    digits of the field and drops the rest, so the add request with
    endpoint [blog] and port [80abc], sent to an empty table, is answered
    [200 OK] by both revisions, and [/blog] is stored and saved with port
    80. *)
Theorem add_reads_leading_digits :
  run (@IndexJs.guiServer Plain.platform
         (post (add (JStr "blog") (JStr "80abc")))) (world [])
  = (Reply (bare 200 "OK"), updated (world []) [("/blog", 80)])
  /\ run (@Refactored.guiServer Plain.platform
            (post (add (JStr "blog") (JStr "80abc")))) (world [])
     = (Reply (bare 200 "OK"), updated (world []) [("/blog", 80)]).
Proof. split; reflexivity. Qed.

(** The same for a port that is a number: [parseInt] reads the leading
    digits of its decimal rendering, so 65535.9 is stored as 65535, and
    1e21 and 1e-7 (rendered [1e+21] and [1e-7]) as 1. *)
Lemma add_reads_numbers_as_written :
  run (@IndexJs.guiServer Plain.platform
         (post (add (JStr "blog") (JNum "65535.9")))) (world [])
  = (Reply (bare 200 "OK"), updated (world []) [("/blog", 65535)])
  /\ run (@IndexJs.guiServer Plain.platform
            (post (add (JStr "blog") (JNum "1e+21")))) (world [])
     = (Reply (bare 200 "OK"), updated (world []) [("/blog", 1)])
  /\ run (@Refactored.guiServer Plain.platform
            (post (add (JStr "blog") (JNum "1e-7")))) (world [])
     = (Reply (bare 200 "OK"), updated (world []) [("/blog", 1)]).
Proof. repeat split. Qed.

(** The endpoint of an add request is checked before its port: with port
    70000 and an endpoint that is not valid the answer is
    [Invalid endpoint], in both revisions. *)
Lemma add_bad_port_and_bad_endpoint :
  run (@IndexJs.guiServer Plain.platform
         (post (add (JStr "My App!") (Js.JInt 70000)))) (world oneApp)
  = (Reply (plain 400 "Invalid endpoint"), world oneApp)
  /\ run (@Refactored.guiServer Plain.platform
            (post (add (JStr "My App!") (Js.JInt 70000)))) (world oneApp)
     = (Reply (plain 400 "Invalid endpoint"), world oneApp)
  /\ plain 400 "Invalid endpoint" <> plain 400 "Invalid port".
Proof. repeat split; discriminate. Qed.

Lemma add_port_out_of_range_witness :
  run (@IndexJs.guiServer Plain.platform
         (post (add (JStr "app") (Js.JInt 70000)))) (world oneApp)
  = (Reply (plain 400 "Invalid port"), world oneApp)
  /\ run (@Refactored.guiServer Plain.platform
            (post (add (JStr "app") (JStr "port")))) (world oneApp)
     = (Reply (plain 400 "Invalid port"), world oneApp).
Proof.
  split.
  - apply (@add_port_out_of_range Plain.platform (world oneApp) _
             (add (JStr "app") (Js.JInt 70000)) "/app" (Some 70000));
      try reflexivity; [right; lia|apply posted_IndexJs].
  - apply (@add_port_out_of_range Plain.platform (world oneApp) _
             (add (JStr "app") (JStr "port")) "/app" None);
      try reflexivity; try exact I; apply posted_Refactored.
Defined.

(** C4, as stated, fails: a rename request whose old endpoint is absent and
    whose new endpoint is not valid is answered 400, not 404, by both
    revisions. *)
Lemma rename_missing_source_bad_target :
  Obj.get oneApp "/ghost" = None
  /\ run (@IndexJs.guiServer Plain.platform
            (post (rename (JStr "ghost") (JStr "My App!")))) (world oneApp)
     = (Reply (plain 400 "Invalid new endpoint"), world oneApp)
  /\ run (@Refactored.guiServer Plain.platform
            (post (rename (JStr "ghost") (JStr "My App!")))) (world oneApp)
     = (Reply (plain 400 "Invalid endpoint"), world oneApp).
Proof. repeat split. Qed.

Lemma rename_missing_source_witness :
  run (@IndexJs.guiServer Plain.platform
         (post (rename (JStr "ghost") (JStr "blog")))) (world oneApp)
  = (Reply (plain 404 "Old endpoint not found"), world oneApp)
  /\ run (@Refactored.guiServer Plain.platform
            (post (rename (JStr "ghost") (JStr "blog")))) (world oneApp)
     = (Reply (plain 404 "Old endpoint not found"), world oneApp).
Proof.
  assert (routingTable oneApp) as Hm by (repeat constructor).
  split.
  - apply (@rename_missing_source Plain.platform (world oneApp) _
             (rename (JStr "ghost") (JStr "blog")) "/ghost" "/blog");
      try reflexivity; [exact Hm|apply posted_IndexJs].
  - apply (@rename_missing_source Plain.platform (world oneApp) _
             (rename (JStr "ghost") (JStr "blog")) "/ghost" "/blog");
      try reflexivity; [exact Hm|apply posted_Refactored].
Defined.

Lemma add_then_get_witness :
  (exists w', run (@IndexJs.guiServer Plain.platform
                     (post (add (JStr "/blog") (Js.JInt 8081)))) (world oneApp)
              = (Reply (bare 200 "OK"), w')
              /\ Obj.get (mappings w') "/blog" = Some 8081)
  /\ (exists w', run (@Refactored.guiServer Plain.platform
                        (post (add (JStr "/blog") (JStr "8081")))) (world oneApp)
                 = (Reply (bare 200 "OK"), w')
                 /\ Obj.get (mappings w') "/blog" = Some 8081).
Proof.
  split.
  - apply (@add_then_get Plain.platform (world oneApp) _
             (add (JStr "/blog") (Js.JInt 8081)) "/blog" 8081 (Js.JInt 8081));
      try reflexivity; [left; reflexivity|lia|apply posted_IndexJs].
  - apply (@add_then_get Plain.platform (world oneApp) _
             (add (JStr "/blog") (JStr "8081")) "/blog" 8081 (JStr "8081"));
      try reflexivity; [right; reflexivity|lia|apply posted_Refactored].
Defined.

Lemma rename_moves_port_witness :
  (exists w', run (@IndexJs.guiServer Plain.platform
                     (post (rename (JStr "/app") (JStr "/blog")))) (world oneApp)
              = (Reply (bare 200 "OK"), w')
              /\ Obj.get (mappings w') "/app" = None
              /\ Obj.get (mappings w') "/blog" = Some 8080)
  /\ (exists w', run (@Refactored.guiServer Plain.platform
                        (post (rename (JStr "/app") (JStr "/blog")))) (world oneApp)
                 = (Reply (bare 200 "OK"), w')
                 /\ Obj.get (mappings w') "/app" = None
                 /\ Obj.get (mappings w') "/blog" = Some 8080).
Proof.
  assert (routingTable oneApp) as Hm by (repeat constructor).
  split.
  - apply (@rename_moves_port Plain.platform (world oneApp) _
             (rename (JStr "/app") (JStr "/blog")) "/app" "/blog" 8080);
      try reflexivity; [discriminate|exact Hm|apply posted_IndexJs].
  - apply (@rename_moves_port Plain.platform (world oneApp) _
             (rename (JStr "/app") (JStr "/blog")) "/app" "/blog" 8080);
      try reflexivity; [discriminate|exact Hm|apply posted_Refactored].
Defined.

Lemma referer_fallback_keeps_path_witness :
  @findEndpoint Plain.platform oneApp "/assets/style.css" "http://host/app/page"
  = Some {| endpoint := "/app"; port := Some 8080; matchedByPath := false |}
  /\ @proxyServer Plain.platform oneApp
       (fetch "/assets/style.css" (Some "http://host/app/page"))
     = Forward (Some 8080) "/assets/style.css"
         "http://localhost:8080/assets/style.css".
Proof.
  apply (@referer_fallback_keeps_path Plain.platform
           (fetch "/assets/style.css" (Some "http://host/app/page"))
           (at_ "/assets/style.css") (at_ "/app/page"));
    reflexivity.
Defined.

(** C8, as stated, fails on the refactored revision: its admin server
    answers a GET of [/gui] with 404 Not Found. *)
Lemma refactored_admin_has_no_gui_route :
  run (@Refactored.guiServer Plain.platform (fetch "/gui" None)) (world oneApp)
  = (Reply notFound, world oneApp).
Proof. reflexivity. Qed.

Lemma admin_page_routes_witness :
  run (@IndexJs.guiServer Plain.platform (fetch "/" None)) (world oneApp)
  = (Reply (@page Plain.platform), world oneApp)
  /\ run (@IndexJs.guiServer Plain.platform (fetch "/gui" None)) (world oneApp)
     = (Reply (@page Plain.platform), world oneApp)
  /\ run (@Refactored.guiServer Plain.platform (fetch "/" None)) (world oneApp)
     = (Reply (@page Plain.platform), world oneApp)
  /\ run (@Refactored.guiServer Plain.platform (fetch "/gui" None)) (world oneApp)
     = (Reply notFound, world oneApp).
Proof.
  split; [|split; [|split]].
  - apply (@admin_page_routes Plain.platform _ (fetch "/" None) (at_ "/"));
      first [reflexivity | left; reflexivity].
  - apply (@admin_page_routes Plain.platform _ (fetch "/gui" None) (at_ "/gui"));
      first [reflexivity | right; reflexivity].
  - apply (@admin_page_routes Plain.platform _ (fetch "/" None) (at_ "/"));
      reflexivity.
  - apply (@admin_page_routes Plain.platform _ (fetch "/gui" None) (at_ "/gui"));
      reflexivity.
Defined.

Lemma rename_onto_itself_deletes_witness :
  run (@IndexJs.guiServer Plain.platform
         (post (rename (JStr "app") (JStr " /App ")))) (world twoApps)
  = (Reply (bare 200 "OK"), updated (world twoApps) [("/app/api", 9090)])
  /\ run (@Refactored.guiServer Plain.platform
            (post (rename (JStr "app") (JStr " /App ")))) (world twoApps)
     = (Reply (bare 200 "OK"), updated (world twoApps) [("/app/api", 9090)]).
Proof.
  assert (routingTable twoApps) as Hm by (repeat constructor).
  split.
  - apply (@rename_onto_itself_deletes Plain.platform (world twoApps) _
             (rename (JStr "app") (JStr " /App ")) "/app" 8080);
      try reflexivity; [exact Hm|apply posted_IndexJs].
  - apply (@rename_onto_itself_deletes Plain.platform (world twoApps) _
             (rename (JStr "app") (JStr " /App ")) "/app" 8080);
      try reflexivity; [exact Hm|apply posted_Refactored].
Defined.

(** C10, as stated, fails: the body [null] is well-formed JSON and names
    none of the three actions, but reading [action] of [null] throws, and
    the request is answered 400 [Invalid JSON] with nothing saved. *)
Lemma null_body_is_refused :
  run (@IndexJs.guiServer Plain.platform (post JNull)) (world oneApp)
  = (Reply (bare 400 "Invalid JSON"), world oneApp)
  /\ run (@Refactored.guiServer Plain.platform (post JNull)) (world oneApp)
     = (Reply (bare 400 "Invalid JSON"), world oneApp).
Proof. split; reflexivity. Qed.

Lemma unknown_action_still_saves_witness :
  run (@IndexJs.guiServer Plain.platform
         (post (JObj [("action", JStr "purge")]))) (world oneApp)
  = (Reply (bare 200 "OK"), updated (world oneApp) oneApp)
  /\ run (@Refactored.guiServer Plain.platform (post (JArr []))) (world oneApp)
     = (Reply (bare 200 "OK"), updated (world oneApp) oneApp).
Proof.
  split.
  - apply (@unknown_action_still_saves Plain.platform (world oneApp) _
             (JObj [("action", JStr "purge")]));
      try discriminate; apply posted_IndexJs.
  - apply (@unknown_action_still_saves Plain.platform (world oneApp) _
             (JArr []));
      try discriminate; apply posted_Refactored.
Defined.

(** ** Further behaviour left out of the amended claims *)

(** A port whose conversion to a string throws is answered as invalid
    JSON. *)
Lemma add_port_conversion_throws :
  run (@IndexJs.guiServer Plain.platform
         (post (add (JStr "blog") (JObj [("toString", JNull)])))) (world [])
  = (Reply (bare 400 "Invalid JSON"), world []).
Proof. reflexivity. Qed.

(** The two revisions differ on an endpoint that is not a string: [index.js]
    throws on [trim], the refactored revision converts it with [String]. *)
Lemma revisions_differ_on_numeric_endpoint :
  run (@IndexJs.guiServer Plain.platform
         (post (add (Js.JInt 5) (Js.JInt 8080)))) (world [])
  = (Reply (bare 400 "Invalid JSON"), world [])
  /\ run (@Refactored.guiServer Plain.platform
            (post (add (Js.JInt 5) (Js.JInt 8080)))) (world [])
     = (Reply (bare 200 "OK"), updated (world []) [("/5", 8080)]).
Proof. split; reflexivity. Qed.

(** Why the claims on rename speak of routing tables: on a table that has a
    key [hasOwnProperty], the call of that method throws. *)
Lemma rename_on_shadowed_method :
  run (@IndexJs.guiServer Plain.platform
         (post (rename (JStr "app") (JStr "blog"))))
      (world [("hasOwnProperty", 1); ("/app", 8080)])
  = (Reply (bare 400 "Invalid JSON"), world [("hasOwnProperty", 1); ("/app", 8080)]).
Proof. reflexivity. Qed.

(** * Further properties of the code *)

(** ** The resolver, characterised *)

Lemma scan_none_inv (m : table) (p : string) (byPath : bool) (l : list string) :
  scan m p byPath l = None -> forall e, In e l -> hit p e = false.
Proof.
  induction l as [|h l IH]; simpl; [contradiction|].
  destruct (hit p h) eqn:Hh; [discriminate|].
  intros Hs e [<-|He]; auto.
Qed.

(** Over a list sorted longest first, no entry that matches is longer than
    the one the scan answers. *)
Lemma scan_first_longest (m : table) (p : string) (byPath : bool)
      (l : list string) (r : Match) :
  StronglySorted longerFirst l ->
  scan m p byPath l = Some r ->
  forall e', In e' l -> hit p e' = true ->
             (String.length e' <= String.length (endpoint r))%nat.
Proof.
  induction 1 as [|h l Hs IH Hh]; simpl; [discriminate|].
  destruct (hit p h) eqn:Hph.
  - intros [= <-] e' [<-|He'] _; simpl; [lia|].
    rewrite Forall_forall in Hh; apply (Hh e' He').
  - intros Hscan e' [<-|He'] Hhit; [congruence|auto].
Qed.

Lemma scanned_longest (m : table) (p : string) (byPath : bool) (r : Match) :
  scan m p byPath (sortByLength (Obj.keys m)) = Some r ->
  In (endpoint r) (Obj.keys m) /\ hit p (endpoint r) = true
  /\ port r = Obj.get m (endpoint r) /\ matchedByPath r = byPath
  /\ forall e', In e' (Obj.keys m) -> hit p e' = true ->
                (String.length e' <= String.length (endpoint r))%nat.
Proof.
  intros Hscan.
  destruct (scan_sound _ _ _ _ _ Hscan) as (Hin & Hhit & Hport & Hby).
  split; [exact (proj1 (In_sortByLength _ _) Hin)|].
  split; [assumption|split; [assumption|split; [assumption|]]].
  intros e' He'; apply (scan_first_longest _ _ _ _ _ (sortByLength_sorted _) Hscan).
  now apply In_sortByLength.
Qed.

Lemma truthy_false (s : string) : JsString.truthy s = false <-> s = EmptyString.
Proof. destruct s; simpl; split; congruence. Qed.

Section ResolverSpec.

Context {platform : Platform}.

(** X1.  The resolver answers a direct-path match [e] with port [v] exactly
    when [e] is a stored endpoint that matches the request path, [v] is
    what the table holds for it, and no stored endpoint that matches is
    longer; the referer plays no part. *)
Theorem direct_match_iff (m : table) (path referer e : string) (v : option Z) :
  findEndpoint m path referer
  = Some {| endpoint := e; port := v; matchedByPath := true |}
  <-> In e (Obj.keys m) /\ hit path e = true /\ v = Obj.get m e
      /\ forall e', In e' (Obj.keys m) -> hit path e' = true ->
                    (String.length e' <= String.length e)%nat.
Proof.
  split.
  - unfold findEndpoint; intros H.
    destruct (scan m path true _) as [r|] eqn:E1.
    + injection H as ->.
      destruct (scanned_longest _ _ _ _ E1) as (? & ? & ? & _ & ?); auto.
    + destruct (JsString.truthy referer); [|discriminate].
      destruct (URL_new referer None) as [refUrl|]; [|discriminate].
      apply scan_sound in H as (_ & _ & _ & Hby); discriminate Hby.
  - intros (Hin & Hhit & -> & Hmax); now apply findEndpoint_longest.
Qed.

(** X2.  The resolver answers a referer-derived match [e] exactly when no
    stored endpoint matches the request path, the referer is not empty and
    parses as a URL, and [e] is the longest stored endpoint that matches the
    path of that URL. *)
Theorem referer_match_iff (m : table) (path referer e : string) (v : option Z) :
  findEndpoint m path referer
  = Some {| endpoint := e; port := v; matchedByPath := false |}
  <-> (forall k, In k (Obj.keys m) -> hit path k = false)
      /\ referer <> EmptyString
      /\ exists refUrl,
           URL_new referer None = Some refUrl
           /\ In e (Obj.keys m) /\ hit (pathname refUrl) e = true
           /\ v = Obj.get m e
           /\ forall e', In e' (Obj.keys m) -> hit (pathname refUrl) e' = true ->
                         (String.length e' <= String.length e)%nat.
Proof.
  split.
  - unfold findEndpoint; intros H.
    destruct (scan m path true _) as [r|] eqn:E1.
    + injection H as ->.
      apply scan_sound in E1 as (_ & _ & _ & Hby); discriminate Hby.
    + destruct (JsString.truthy referer) eqn:Ht; [|discriminate].
      destruct (URL_new referer None) as [refUrl|] eqn:Hu; [|discriminate].
      destruct (scanned_longest _ _ _ _ H) as (? & ? & ? & _ & ?).
      split; [|split].
      * intros k Hk; apply (scan_none_inv _ _ _ _ E1); now apply In_sortByLength.
      * intros ->; discriminate Ht.
      * exists refUrl; auto.
  - intros (Hnone & Href & refUrl & Hu & Hin & Hhit & -> & Hmax).
    unfold findEndpoint.
    rewrite scan_none
      by (intros k Hk; apply Hnone; exact (proj1 (In_sortByLength _ _) Hk)).
    destruct (JsString.truthy referer) eqn:Ht;
      [|apply truthy_false in Ht; contradiction].
    rewrite Hu.
    apply scan_longest; auto using sortByLength_sorted.
    + now apply In_sortByLength.
    + intros e' He'; apply Hmax; exact (proj1 (In_sortByLength _ _) He').
Qed.

(** X3.  The resolver answers no match exactly when no stored endpoint
    matches the request path and the referer is empty, or does not parse as
    a URL (the failure is swallowed), or parses to a path that no stored
    endpoint matches. *)
Theorem no_match_iff (m : table) (path referer : string) :
  findEndpoint m path referer = None
  <-> (forall k, In k (Obj.keys m) -> hit path k = false)
      /\ (referer = EmptyString
          \/ URL_new referer None = None
          \/ exists refUrl,
               URL_new referer None = Some refUrl
               /\ forall k, In k (Obj.keys m) -> hit (pathname refUrl) k = false).
Proof.
  split.
  - unfold findEndpoint; intros H.
    destruct (scan m path true _) as [r|] eqn:E1; [discriminate|].
    split.
    { intros k Hk; apply (scan_none_inv _ _ _ _ E1); now apply In_sortByLength. }
    destruct (JsString.truthy referer) eqn:Ht;
      [|left; now apply truthy_false].
    destruct (URL_new referer None) as [refUrl|]; [|auto].
    right; right; exists refUrl; split; [reflexivity|].
    intros k Hk; apply (scan_none_inv _ _ _ _ H); now apply In_sortByLength.
  - intros (Hnone & Href); unfold findEndpoint.
    rewrite scan_none
      by (intros k Hk; apply Hnone; exact (proj1 (In_sortByLength _ _) Hk)).
    destruct (JsString.truthy referer) eqn:Ht; [|reflexivity].
    destruct Href as [->|[->|(refUrl & -> & Hr)]]; try reflexivity.
    + discriminate Ht.
    + apply scan_none; intros k Hk; apply Hr; exact (proj1 (In_sortByLength _ _) Hk).
Qed.

End ResolverSpec.

(** ** The sort of the keys *)

Lemma ofLength_insertByLength (n : nat) (a : string) (l : list string) :
  ofLength n (insertByLength a l)
  = if Nat.eqb (String.length a) n then a :: ofLength n l else ofLength n l.
Proof.
  unfold ofLength; induction l as [|b l IH]; simpl; [reflexivity|].
  unfold JsString.length.
  destruct (Z.gtb_spec (Z.of_nat (String.length b) - Z.of_nat (String.length a)) 0)
    as [Hgt|Hle]; simpl; [|reflexivity].
  rewrite IH.
  destruct (Nat.eqb_spec (String.length a) n) as [Ha|Ha]; [|reflexivity].
  destruct (Nat.eqb_spec (String.length b) n); [lia|reflexivity].
Qed.

(** X4.  The sort of [findEndpoint] keeps exactly the keys it is given,
    puts a longer key before a shorter one, and leaves keys of one length in
    the order they had. *)
Theorem sortByLength_stable_sort (l : list string) :
  Permutation l (sortByLength l)
  /\ StronglySorted longerFirst (sortByLength l)
  /\ forall n, ofLength n (sortByLength l) = ofLength n l.
Proof.
  split; [apply sortByLength_perm|split; [apply sortByLength_sorted|]].
  intros n; induction l as [|a l IH]; [reflexivity|].
  simpl sortByLength; rewrite ofLength_insertByLength, IH.
  unfold ofLength; simpl; now destruct (Nat.eqb (String.length a) n).
Qed.

(** ** The forwarded path *)

Lemma prefix_split (a p : string) :
  String.prefix a p = true -> exists rest, p = a ++ rest.
Proof.
  revert p; induction a as [|c a IH]; intros [|d p] H; simpl in *;
    try discriminate; eauto.
  destruct (ascii_dec c d) as [->|]; [|discriminate].
  destruct (IH _ H) as [rest ->]; eauto.
Qed.

Lemma drop_app (a rest : string) : JsString.drop (String.length a) (a ++ rest) = rest.
Proof. induction a; simpl; auto. Qed.

Lemma slice_app (a rest : string) :
  JsString.slice (a ++ rest) (JsString.length a) = rest.
Proof.
  unfold JsString.slice, JsString.length; rewrite Nat2Z.id; apply drop_app.
Qed.

Lemma app_empty_r (a : string) : a ++ "" = a.
Proof. induction a; simpl; congruence. Qed.

Lemma app_assoc_string (a b c : string) : (a ++ b) ++ c = a ++ (b ++ c).
Proof. induction a; simpl; congruence. Qed.

Section ForwardedPath.

Context {platform : Platform}.

Lemma findEndpoint_direct_hit (m : table) (path referer : string) (r : Match) :
  findEndpoint m path referer = Some r -> matchedByPath r = true ->
  hit path (endpoint r) = true.
Proof.
  unfold findEndpoint; intros H Hby.
  destruct (scan m path true _) as [r1|] eqn:E1.
  - injection H as ->; now apply scan_sound in E1.
  - destruct (JsString.truthy referer); [|discriminate].
    destruct (URL_new referer None); [|discriminate].
    apply scan_sound in H as (_ & _ & _ & Hf); congruence.
Qed.

(** X5.  On a direct-path match whose port lies in 0-65535 (a port that
    [http.request] takes) the proxy forwards what is left of the request
    path after the matched endpoint: the path is the endpoint followed by
    the forwarded path, which begins with a slash; when the path is the
    endpoint itself, a single slash is forwarded. *)
Theorem forward_strips_endpoint (m : table) (req : Request) (u : URL) (r : Match) :
  URL_new (url req) (Some ("http://localhost:" ++ PORT)) = Some u ->
  (String.eqb (pathname u) "/gui" || JsString.startsWith (pathname u) "/gui/") = false ->
  findEndpoint m (pathname u) (refererOf req) = Some r ->
  matchedByPath r = true ->
  requestable (port r) = true ->
  exists targetPath,
    proxyServer m req
    = Forward (port r) targetPath
        ("http://localhost:" ++ showPort (port r) ++ targetPath ++ search u)
    /\ ((pathname u = endpoint r /\ targetPath = "/")
        \/ (pathname u = endpoint r ++ targetPath
            /\ JsString.startsWith targetPath "/" = true)).
Proof.
  intros Hu Hgui Hfind Hby Hport.
  pose proof (findEndpoint_direct_hit _ _ _ _ Hfind Hby) as Hhit.
  destruct r as [e v by_]; cbn [matchedByPath endpoint port] in *; subst by_.
  pose proof (proxyServer_direct m req u e v Hu Hgui Hfind Hport) as Hfwd;
    cbv zeta in Hfwd.
  eexists; split; [exact Hfwd|].
  destruct (hit_cases _ _ Hhit) as [->|[Hpre _]].
  - left; split; [reflexivity|].
    rewrite <- (app_empty_r (pathname u)) at 1; now rewrite slice_app.
  - right; apply prefix_split in Hpre as [rest Hrest].
    rewrite Hrest, app_assoc_string, slice_app; split; [reflexivity|].
    now destruct rest.
Qed.


End ForwardedPath.

(** ** Tables built through the admin server *)

Lemma endpointChar_not_slash (c : ascii) :
  endpointChar c = true -> Ascii.eqb c "/" = false.
Proof.
  intros H; destruct (Ascii.eqb_spec c "/"%char) as [->|]; [discriminate H|reflexivity].
Qed.

Lemma prefix_cons (c d : ascii) (a s : string) :
  String.prefix (String c a) (String d s) = true ->
  c = d /\ String.prefix a s = true.
Proof. simpl; destruct (ascii_dec c d); [auto|discriminate]. Qed.

Lemma upToSlash_body (body q : string) :
  allEndpointChars body = true ->
  q = body \/ String.prefix (body ++ "/") q = true ->
  upToSlash q = body.
Proof.
  revert q; induction body as [|c body IH]; intros q Hall Hq.
  - destruct Hq as [->|Hq]; [reflexivity|].
    destruct q as [|d q]; [discriminate|].
    apply prefix_cons in Hq as [<- _]; reflexivity.
  - simpl in Hall; apply andb_true_iff in Hall as [Hc Hall].
    destruct Hq as [->|Hq].
    + simpl; rewrite (endpointChar_not_slash c Hc); f_equal; auto.
    + destruct q as [|d q]; [discriminate|].
      apply prefix_cons in Hq as [<- Hq].
      simpl; rewrite (endpointChar_not_slash c Hc); f_equal; auto.
Qed.

(** A valid endpoint that matches a path is the first segment of the
    path. *)
Lemma valid_hit_firstSegment (p e : string) :
  isValidEndpoint e = true -> hit p e = true -> e = firstSegment p.
Proof.
  unfold isValidEndpoint; intros Hv Hhit.
  apply andb_true_iff in Hv as [Hre _].
  apply endpointRe_shape in Hre as (c & body & -> & Hall).
  destruct (hit_cases _ _ Hhit) as [<-|[Hpre _]].
  - unfold firstSegment; f_equal; symmetry; apply upToSlash_body; auto.
  - destruct p as [|d p]; [discriminate|].
    apply prefix_cons in Hpre as [<- Hpre].
    unfold firstSegment; f_equal; symmetry; apply upToSlash_body; auto.
Qed.

Lemma adminTable_key (m : table) (k : string) :
  adminTable m -> In k (Obj.keys m) -> isValidEndpoint k = true.
Proof.
  unfold adminTable, Obj.keys; rewrite Forall_forall; intros Hm Hin.
  apply in_map_iff in Hin as ([k' v] & <- & Hin); apply (Hm _ Hin).
Qed.

(** X6.  In a table as the admin server builds it, a stored endpoint
    that matches the request path is the first segment of that path; no
    other stored endpoint matches, and it is the direct-path match. *)
Theorem admin_table_single_match {platform : Platform}
        (m : table) (path referer e : string) :
  adminTable m ->
  In e (Obj.keys m) ->
  hit path e = true ->
  e = firstSegment path
  /\ (forall e', In e' (Obj.keys m) -> hit path e' = true -> e' = e)
  /\ findEndpoint m path referer
     = Some {| endpoint := e; port := Obj.get m e; matchedByPath := true |}.
Proof.
  intros Hm Hin Hhit.
  assert (forall k, In k (Obj.keys m) -> hit path k = true -> k = firstSegment path)
    as Hseg by (intros k Hk; apply valid_hit_firstSegment, (adminTable_key m k Hm Hk)).
  split; [auto|split].
  - intros e' He' Hhit'; rewrite (Hseg e), (Hseg e'); auto.
  - apply findEndpoint_longest; auto.
    intros e' He' Hhit'; rewrite (Hseg e'), <- (Hseg e); auto.
Qed.

(** ** Every run of the update handler, classified *)

Lemma in_range (p : Z) : (p <? 1) || (p >? 65535) = false <-> 1 <= p <= 65535.
Proof.
  destruct (Z.ltb_spec p 1), (Z.gtb_spec p 65535); simpl; split;
    intros; try discriminate; try reflexivity; lia.
Qed.

Lemma updateWith_result
      (canon : option json -> result (option string)) (invalidNew : string)
      (req : Request) (w : World) :
  updateResult w (run (updateWith canon invalidNew req) w).
Proof.
  assert (forall msg, updateResult w (Reply (plain 400 msg), w)) as Hplain
      by (intros; constructor; auto).
  assert (updateResult w (Reply (bare 400 "Invalid JSON"), w)) as Hjson
      by (constructor; auto).
  unfold run, updateWith, tryCatch, bind, lift, actionIs, ret.
  destruct (body req) as [data|]; simpl; [|assumption].
  destruct (Js.prop data "action") as [a|]; simpl; [|assumption].
  destruct (Js.strictEq a "add").
  { unfold addWith, addPort, bind, lift, getMappings, putMappings.
    destruct (rbind (Js.prop data "endpoint") canon) as [[e|]|]; simpl; auto.
    destruct (isValidEndpoint e) eqn:Hv; simpl; auto.
    destruct (rbind (Js.prop data "port") Js.parseInt) as [[p|]|]; simpl; auto.
    destruct ((p <? 1) || (p >? 65535)) eqn:Hp; simpl; auto.
    apply (Added w e p Hv); now apply in_range. }
  destruct (Js.strictEq a "delete").
  { unfold deleteWith, bind, lift, getMappings, putMappings.
    destruct (rbind (Js.prop data "endpoint") canon) as [[e|]|]; simpl; auto.
    apply Deleted. }
  destruct (Js.strictEq a "rename"); simpl; [|apply Untouched].
  unfold renameWith, moveEndpoint, bind, lift, getMappings, putMappings,
    Obj.hasOwnProperty.
  destruct (rbind (Js.prop data "oldEndpoint") canon) as [o|]; simpl; auto.
  destruct (rbind (Js.prop data "newEndpoint") canon) as [n|]; simpl; auto.
  destruct o as [o|], n as [n|]; simpl; auto.
  destruct (isValidEndpoint n) eqn:Hv; simpl; auto.
  destruct (Obj.get (mappings w) "hasOwnProperty"); simpl; auto.
  destruct (Obj.get (mappings w) o) as [v|] eqn:Hget; simpl.
  - now apply (Renamed w o n v).
  - constructor; auto.
Qed.

Lemma forallb_portsInRange (m : table) :
  portsInRange m <-> forallb (fun kv => validPort (snd kv)) m = true.
Proof.
  unfold portsInRange, validPort; rewrite forallb_forall, Forall_forall.
  split; intros H kv Hin; specialize (H kv Hin); lia.
Qed.

Lemma adminTable_portsInRange (m : table) : adminTable m -> portsInRange m.
Proof.
  unfold adminTable, portsInRange; intros H.
  eapply Forall_impl; [|exact H]; simpl; intros kv [_ Hp]; lia.
Qed.

Lemma portsInRange_get (m : table) (k : string) (v : Z) :
  portsInRange m -> Obj.get m k = Some v -> 0 <= v <= 65535.
Proof.
  unfold portsInRange; induction 1 as [|[k' v'] m Hv _ IH]; simpl; [discriminate|].
  destruct (String.eqb k' k); [intros [= <-]; assumption|assumption].
Qed.

(** In a table whose ports are in range, every match has a port that
    [http.request] takes. *)
Lemma portsInRange_requestable {platform : Platform}
      (m : table) (path referer : string) (r : Match) :
  portsInRange m -> findEndpoint m path referer = Some r ->
  requestable (port r) = true.
Proof.
  intros Hm Hfind.
  destruct (findEndpoint_stored m path referer r Hfind) as (v & Hget & ->).
  pose proof (portsInRange_get m _ v Hm Hget).
  unfold requestable, validPort; lia.
Qed.

Section AdminCases.

Context {platform : Platform}.

(** Every run of the admin server of [index.js]: the URL constructor
    throws; or a reply that carries a content type leaves the world as it
    is; or the status route probes a port that [http.request] does not
    take, and nothing is replied; or the request is a POST and the update
    handler ran. *)
Lemma IndexJs_guiServer_cases (req : Request) (w : World) :
  (URL_new (url req) (Some ("http://localhost:" ++ GUI_PORT)) = None
   /\ run (IndexJs.guiServer req) w = (Uncaught, w))
  \/ (URL_new (url req) (Some ("http://localhost:" ++ GUI_PORT)) <> None
      /\ ((exists r, run (IndexJs.guiServer req) w = (Reply r, w)
                     /\ contentType r <> None)
          \/ (method req = "GET" /\ ~ portsInRange (mappings w)
              /\ run (IndexJs.guiServer req) w = (Uncaught, w))
          \/ (method req = "POST"
              /\ updateResult w (run (IndexJs.guiServer req) w)))).
Proof.
  pose proof (updateWith_result IndexJs.endpointOf "Invalid new endpoint" req w) as Hup.
  unfold run in Hup; rewrite <- IndexJs_update_common in Hup.
  pose proof (forallb_portsInRange (mappings w)) as Hports.
  remember (run (IndexJs.guiServer req) w) as res eqn:Hres.
  revert Hres.
  unfold run, IndexJs.guiServer, getMappingsWithStatus, bind, lift,
    getMappings, ret.
  destruct (URL_new _ _) as [u|]; [right; split; [discriminate|]|left; auto].
  revert Hres; cbv zeta.
  destruct (_ || _); [intros ->; left; eexists; split; [reflexivity|discriminate]|].
  destruct (_ && _) eqn:Hget.
  { apply andb_true_iff in Hget as [_ Hget]; apply String.eqb_eq in Hget.
    destruct (forallb _ _); intros ->.
    - left; eexists; split; [reflexivity|discriminate].
    - right; left; repeat split; auto.
      intros H; apply Hports in H; discriminate. }
  clear Hget.
  destruct (_ || _); simpl;
    [|intros ->; left; eexists; split; [reflexivity|discriminate]].
  destruct (String.eqb_spec (method req) "POST") as [Hm|Hm];
    [|intros ->; left; eexists; split; [reflexivity|discriminate]].
  intros ->; right; right; split; assumption.
Qed.

Lemma Refactored_guiServer_cases (req : Request) (w : World) :
  (URL_new (url req) (Some ("http://localhost:" ++ GUI_PORT)) = None
   /\ run (Refactored.guiServer req) w = (Uncaught, w))
  \/ (URL_new (url req) (Some ("http://localhost:" ++ GUI_PORT)) <> None
      /\ ((exists r, run (Refactored.guiServer req) w = (Reply r, w)
                     /\ contentType r <> None)
          \/ (method req = "GET" /\ ~ portsInRange (mappings w)
              /\ run (Refactored.guiServer req) w = (Uncaught, w))
          \/ (method req = "POST"
              /\ updateResult w (run (Refactored.guiServer req) w)))).
Proof.
  pose proof (updateWith_result Refactored.canonicalizeEndpoint "Invalid endpoint" req w) as Hup.
  unfold run in Hup; rewrite <- Refactored_update_common in Hup.
  pose proof (forallb_portsInRange (mappings w)) as Hports.
  remember (run (Refactored.guiServer req) w) as res eqn:Hres.
  revert Hres.
  unfold run, Refactored.guiServer, getMappingsWithStatus, bind, lift,
    getMappings, ret.
  destruct (URL_new _ _) as [u|]; [right; split; [discriminate|]|left; auto].
  revert Hres; cbv zeta.
  destruct (String.eqb (pathname u) "/");
    [intros ->; left; eexists; split; [reflexivity|discriminate]|].
  destruct (_ && _) eqn:Hget.
  { apply andb_true_iff in Hget as [_ Hget]; apply String.eqb_eq in Hget.
    destruct (forallb _ _); intros ->.
    - left; eexists; split; [reflexivity|discriminate].
    - right; left; repeat split; auto.
      intros H; apply Hports in H; discriminate. }
  clear Hget.
  destruct (String.eqb (pathname u) "/update"); simpl;
    [|intros ->; left; eexists; split; [reflexivity|discriminate]].
  destruct (String.eqb_spec (method req) "POST") as [Hm|Hm];
    [|intros ->; left; eexists; split; [reflexivity|discriminate]].
  intros ->; right; right; split; assumption.
Qed.

End AdminCases.

(** ** What every request leaves behind *)

Lemma adminTable_set (m : table) (e : string) (p : Z) :
  adminTable m -> isValidEndpoint e = true -> 1 <= p <= 65535 ->
  adminTable (Obj.set m e p).
Proof.
  unfold adminTable; intros Hm He Hp.
  induction Hm as [|[k v] m Hk Hm IH]; simpl.
  - repeat constructor; simpl; auto; lia.
  - destruct (String.eqb k e); constructor; simpl in *; auto; tauto.
Qed.

Lemma adminTable_delete (m : table) (e : string) :
  adminTable m -> adminTable (Obj.delete m e).
Proof.
  unfold adminTable, Obj.delete; intros Hm.
  apply Forall_forall; intros kv Hin.
  apply filter_In in Hin as [Hin _].
  rewrite Forall_forall in Hm; auto.
Qed.

Lemma adminTable_get (m : table) (k : string) (v : Z) :
  adminTable m -> Obj.get m k = Some v -> 1 <= v <= 65535.
Proof.
  unfold adminTable; induction 1 as [|[k' v'] m [_ Hv] _ IH]; simpl; [discriminate|].
  destruct (String.eqb k' k); [intros [= <-]; assumption|assumption].
Qed.

Lemma updateResult_keeps_adminTable (w : World) (res : Outcome * World) :
  updateResult w res -> adminTable (mappings w) -> adminTable (mappings (snd res)).
Proof.
  intros [r Hr|e p He Hp|e|a b v Hb Hget|] Hm; simpl; auto.
  - now apply adminTable_set.
  - now apply adminTable_delete.
  - apply adminTable_delete, adminTable_set; auto.
    eapply adminTable_get; eassumption.
Qed.

Lemma updateResult_discipline (w : World) (res : Outcome * World) :
  updateResult w res ->
  (snd res = w /\ fst res <> Reply (bare 200 "OK"))
  \/ (fst res = Reply (bare 200 "OK")
      /\ snd res = updated w (mappings (snd res))).
Proof.
  intros [r Hr|e p He Hp|e|a b v Hb Hget|]; simpl; auto.
  left; split; [reflexivity|].
  intros [= ->]; simpl in Hr; destruct Hr; discriminate.
Qed.

Section AdminInvariants.

Context {platform : Platform}.

(** X7.  Whatever the request, the admin server of either revision keeps a
    table in which every key is a valid endpoint (so never [/gui]) and
    every port lies in 1-65535 in that state. *)
Theorem guiServer_keeps_adminTable (req : Request) (w : World) :
  adminTable (mappings w) ->
  adminTable (mappings (snd (run (IndexJs.guiServer req) w)))
  /\ adminTable (mappings (snd (run (Refactored.guiServer req) w))).
Proof.
  intros Hm; split.
  - destruct (IndexJs_guiServer_cases req w)
      as [[_ ->]|[_ [(r & -> & _)|[(_ & _ & ->)|[_ Hup]]]]]; auto.
    now apply (updateResult_keeps_adminTable w).
  - destruct (Refactored_guiServer_cases req w)
      as [[_ ->]|[_ [(r & -> & _)|[(_ & _ & ->)|[_ Hup]]]]]; auto.
    now apply (updateResult_keeps_adminTable w).
Qed.

(** X8.  For every request to the admin server of either revision: if the
    answer is the acknowledgement [200 OK], the table then in memory has
    been written to the mappings file, once; if the answer carries a
    content type (the page, the status report, 404 Not Found and every
    refusal of the update handler do), or if nothing is answered, neither
    the table nor the mappings file is touched.  Nothing is said of the
    answer [400 Invalid JSON] of the catch clause, which has no content
    type: the clause also catches what [saveMappings] throws, after the
    table was changed. *)
Theorem guiServer_saves_what_it_changes (req : Request) (w : World) :
  ((fst (run (IndexJs.guiServer req) w) = Reply (bare 200 "OK") ->
    snd (run (IndexJs.guiServer req) w)
    = updated w (mappings (snd (run (IndexJs.guiServer req) w))))
   /\ (forall r, fst (run (IndexJs.guiServer req) w) = Reply r ->
                 contentType r <> None ->
                 snd (run (IndexJs.guiServer req) w) = w)
   /\ (fst (run (IndexJs.guiServer req) w) = Uncaught ->
       snd (run (IndexJs.guiServer req) w) = w))
  /\ ((fst (run (Refactored.guiServer req) w) = Reply (bare 200 "OK") ->
       snd (run (Refactored.guiServer req) w)
       = updated w (mappings (snd (run (Refactored.guiServer req) w))))
      /\ (forall r, fst (run (Refactored.guiServer req) w) = Reply r ->
                    contentType r <> None ->
                    snd (run (Refactored.guiServer req) w) = w)
      /\ (fst (run (Refactored.guiServer req) w) = Uncaught ->
          snd (run (Refactored.guiServer req) w) = w)).
Proof.
  assert (forall res : Outcome * World,
             updateResult w res ->
             (fst res = Reply (bare 200 "OK") ->
              snd res = updated w (mappings (snd res)))
             /\ (forall r, fst res = Reply r -> contentType r <> None ->
                           snd res = w)
             /\ (fst res = Uncaught -> snd res = w)) as Hup.
  { intros res [r Hr|e p He Hp|e|a b v Hb Hget|]; simpl;
      (split; [|split]); try discriminate; try reflexivity;
      try (intros r' [= <-] Hc; now elim Hc).
    intros [= ->]; simpl in Hr; destruct Hr; discriminate. }
  split.
  - destruct (IndexJs_guiServer_cases req w)
      as [[_ ->]|[_ [(r & -> & Hr)|[(_ & _ & ->)|[_ Hres]]]]]; simpl; auto.
    + repeat split; try discriminate; auto.
    + repeat split; try discriminate; auto.
      intros [= ->]; now elim Hr.
    + repeat split; try discriminate; auto.
  - destruct (Refactored_guiServer_cases req w)
      as [[_ ->]|[_ [(r & -> & Hr)|[(_ & _ & ->)|[_ Hres]]]]]; simpl; auto.
    + repeat split; try discriminate; auto.
    + repeat split; try discriminate; auto.
      intros [= ->]; now elim Hr.
    + repeat split; try discriminate; auto.
Qed.

(** X9.  A request whose method is not POST changes nothing: neither the
    table nor the mappings file, in either revision. *)
Theorem only_post_changes (req : Request) (w : World) :
  method req <> "POST" ->
  snd (run (IndexJs.guiServer req) w) = w
  /\ snd (run (Refactored.guiServer req) w) = w.
Proof.
  intros Hm; split.
  - destruct (IndexJs_guiServer_cases req w)
      as [[_ ->]|[_ [(r & -> & _)|[(_ & _ & ->)|[Hpost _]]]]]; auto;
      contradiction.
  - destruct (Refactored_guiServer_cases req w)
      as [[_ ->]|[_ [(r & -> & _)|[(_ & _ & ->)|[Hpost _]]]]]; auto;
      contradiction.
Qed.

(** X10.  While every stored port lies in 0-65535, a handler ends without
    a reply in one case only, when the URL constructor throws on the
    request target: everything thrown while an update is handled is caught,
    and so is a referer that does not parse.  (A stored port outside
    0-65535 is the other case: [http.request] throws on it, in a forward
    and in the probes of the status route.) *)
Theorem uncaught_iff_bad_url (m : table) (req : Request) (w : World) :
  portsInRange m ->
  portsInRange (mappings w) ->
  (proxyServer m req = Uncaught
   <-> URL_new (url req) (Some ("http://localhost:" ++ PORT)) = None)
  /\ (fst (run (IndexJs.guiServer req) w) = Uncaught
      <-> URL_new (url req) (Some ("http://localhost:" ++ GUI_PORT)) = None)
  /\ (fst (run (Refactored.guiServer req) w) = Uncaught
      <-> URL_new (url req) (Some ("http://localhost:" ++ GUI_PORT)) = None).
Proof.
  intros Hm Hw.
  assert (forall res, updateResult w res -> fst res <> Uncaught) as Hup
      by (intros res []; discriminate).
  split; [|split].
  - unfold proxyServer.
    destruct (URL_new _ _) as [u|]; [|tauto].
    split; [|discriminate].
    destruct (_ || _); [discriminate|].
    destruct (findEndpoint _ _ _) as [r|] eqn:Hfind; [|discriminate].
    cbv zeta; rewrite (portsInRange_requestable m _ _ r Hm Hfind); discriminate.
  - destruct (IndexJs_guiServer_cases req w)
      as [[Hu ->]|[Hu [(r & -> & _)|[(_ & Hbad & _)|[_ Hres]]]]];
      simpl; try tauto.
    + split; [discriminate|contradiction].
    + split; [intros H; now apply Hup in Hres|contradiction].
  - destruct (Refactored_guiServer_cases req w)
      as [[Hu ->]|[Hu [(r & -> & _)|[(_ & Hbad & _)|[_ Hres]]]]];
      simpl; try tauto.
    + split; [discriminate|contradiction].
    + split; [intros H; now apply Hup in Hres|contradiction].
Qed.

End AdminInvariants.

(** ** The branches of the update handler, further *)

Section UpdateFacts2.

Variable canon : option json -> result (option string).
Variable invalidNew : string.
Variables (req : Request) (data : json) (w : World).
Hypothesis Hbody : body req = Some data.

Ltac enter2 Hact :=
  unfold run, updateWith, tryCatch, bind, lift, actionIs, ret;
  rewrite Hbody, Hact; simpl.

Lemma update_delete (e : option string) :
  Js.prop data "action" = Ok (Some (JStr "delete")) ->
  rbind (Js.prop data "endpoint") canon = Ok e ->
  run (updateWith canon invalidNew req) w
  = match e with
    | Some e => (Reply (bare 200 "OK"), updated w (Obj.delete (mappings w) e))
    | None => (Reply (plain 400 "Invalid endpoint"), w)
    end.
Proof.
  intros Hact He; enter2 Hact.
  unfold deleteWith, bind, lift, getMappings, putMappings; rewrite He.
  now destruct e.
Qed.

Lemma update_rename_refused (a b : option string) :
  Js.prop data "action" = Ok (Some (JStr "rename")) ->
  rbind (Js.prop data "oldEndpoint") canon = Ok a ->
  rbind (Js.prop data "newEndpoint") canon = Ok b ->
  match a, b with
  | Some _, Some b => isValidEndpoint b = false
  | _, _ => True
  end ->
  run (updateWith canon invalidNew req) w
  = (Reply (plain 400 match a, b with
                      | Some _, Some _ => invalidNew
                      | _, _ => "Invalid endpoint"
                      end), w).
Proof.
  intros Hact Ha Hb Hv; enter2 Hact.
  unfold renameWith, bind, lift; rewrite Ha, Hb.
  destruct a as [a|], b as [b|]; try reflexivity.
  now rewrite Hv.
Qed.

End UpdateFacts2.

Lemma keys_set (m : table) (e : string) (p : Z) :
  Obj.keys (Obj.set m e p)
  = match Obj.get m e with
    | Some _ => Obj.keys m
    | None => (Obj.keys m ++ [e])%list
    end.
Proof.
  unfold Obj.keys; induction m as [|[k v] m IH]; simpl; [reflexivity|].
  destruct (String.eqb k e); simpl; [reflexivity|].
  rewrite IH; now destruct (Obj.get m e).
Qed.

Section UpdateBranches.

Context {platform : Platform}.

(** X11.  A delete request whose endpoint canonicalises to [e] is
    acknowledged whether or not [e] is stored, and without any check of
    [e]: afterwards [e] is not in the table, every other endpoint is as it
    was, and when [e] was not stored the table is unchanged (and saved all
    the same). *)
Theorem delete_then_get (w : World) (req : Request) (data : json) (e : string) :
  Js.prop data "action" = Ok (Some (JStr "delete")) ->
  (Obj.get (Obj.delete (mappings w) e) e = None
   /\ (forall k, e <> k ->
                 Obj.get (Obj.delete (mappings w) e) k = Obj.get (mappings w) k)
   /\ (Obj.get (mappings w) e = None -> Obj.delete (mappings w) e = mappings w))
  /\ (IndexJs.posted req data ->
      rbind (Js.prop data "endpoint") IndexJs.endpointOf = Ok (Some e) ->
      run (IndexJs.guiServer req) w
      = (Reply (bare 200 "OK"), updated w (Obj.delete (mappings w) e)))
  /\ (Refactored.posted req data ->
      rbind (Js.prop data "endpoint") Refactored.canonicalizeEndpoint = Ok (Some e) ->
      run (Refactored.guiServer req) w
      = (Reply (bare 200 "OK"), updated w (Obj.delete (mappings w) e))).
Proof.
  intros Hact; split; [|split].
  - split; [apply get_delete_same|split].
    + intros k Hk; now apply get_delete_other.
    + apply delete_absent.
  - intros Hpost He.
    destruct (IndexJs_route req data w Hpost) as [Hb ->].
    now rewrite (update_delete _ _ req data w Hb (Some e)).
  - intros Hpost He.
    destruct (Refactored_route req data w Hpost) as [Hb ->].
    now rewrite (update_delete _ _ req data w Hb (Some e)).
Qed.

(** X12.  An accepted add request writes one entry and nothing else: every
    other endpoint keeps its port, an endpoint that was stored keeps its
    place in the enumeration of the keys, and a new one is enumerated
    last. *)
Theorem add_writes_one_entry (w : World) (req : Request) (data : json)
        (e : string) (p : Z) :
  Js.prop data "action" = Ok (Some (JStr "add")) ->
  isValidEndpoint e = true ->
  rbind (Js.prop data "port") Js.parseInt = Ok (Some p) ->
  1 <= p <= 65535 ->
  ((forall k, e <> k ->
              Obj.get (Obj.set (mappings w) e p) k = Obj.get (mappings w) k)
   /\ Obj.keys (Obj.set (mappings w) e p)
      = match Obj.get (mappings w) e with
        | Some _ => Obj.keys (mappings w)
        | None => (Obj.keys (mappings w) ++ [e])%list
        end)
  /\ (IndexJs.posted req data ->
      rbind (Js.prop data "endpoint") IndexJs.endpointOf = Ok (Some e) ->
      run (IndexJs.guiServer req) w
      = (Reply (bare 200 "OK"), updated w (Obj.set (mappings w) e p)))
  /\ (Refactored.posted req data ->
      rbind (Js.prop data "endpoint") Refactored.canonicalizeEndpoint = Ok (Some e) ->
      run (Refactored.guiServer req) w
      = (Reply (bare 200 "OK"), updated w (Obj.set (mappings w) e p))).
Proof.
  intros Hact Hv Hport Hp.
  apply in_range in Hp.
  split; [|split].
  - split; [intros k Hk; now apply get_set_other|apply keys_set].
  - intros Hpost He.
    destruct (IndexJs_route req data w Hpost) as [Hb ->].
    now rewrite (update_add _ _ req data w Hb e (Some p)), Hp.
  - intros Hpost He.
    destruct (Refactored_route req data w Hpost) as [Hb ->].
    now rewrite (update_add _ _ req data w Hb e (Some p)), Hp.
Qed.

(** X13.  An add request whose endpoint is missing, blank after trimming,
    or canonicalises to something that is not a valid endpoint (the
    reserved [/gui] among them) is answered 400 [Invalid endpoint] before
    the port is looked at, and changes nothing. *)
Theorem add_invalid_endpoint_refused (w : World) (req : Request) (data : json)
        (e : option string) :
  Js.prop data "action" = Ok (Some (JStr "add")) ->
  match e with Some e => isValidEndpoint e = false | None => True end ->
  (IndexJs.posted req data ->
   rbind (Js.prop data "endpoint") IndexJs.endpointOf = Ok e ->
   run (IndexJs.guiServer req) w = (Reply (plain 400 "Invalid endpoint"), w))
  /\ (Refactored.posted req data ->
      rbind (Js.prop data "endpoint") Refactored.canonicalizeEndpoint = Ok e ->
      run (Refactored.guiServer req) w = (Reply (plain 400 "Invalid endpoint"), w)).
Proof.
  intros Hact Hv; split; intros Hpost He.
  - destruct (IndexJs_route req data w Hpost) as [Hb ->].
    now apply (update_add_invalid_endpoint _ _ req data w Hb e).
  - destruct (Refactored_route req data w Hpost) as [Hb ->].
    now apply (update_add_invalid_endpoint _ _ req data w Hb e).
Qed.

(** X14.  An accepted rename from [a] to [b] touches those two endpoints
    only: every other endpoint of the table keeps its port. *)
Theorem rename_touches_two_entries (w : World) (req : Request) (data : json)
        (a b : string) (v : Z) :
  Js.prop data "action" = Ok (Some (JStr "rename")) ->
  isValidEndpoint b = true ->
  routingTable (mappings w) ->
  Obj.get (mappings w) a = Some v ->
  (forall k, a <> k -> b <> k ->
             Obj.get (Obj.delete (Obj.set (mappings w) b v) a) k
             = Obj.get (mappings w) k)
  /\ (IndexJs.posted req data ->
      rbind (Js.prop data "oldEndpoint") IndexJs.endpointOf = Ok (Some a) ->
      rbind (Js.prop data "newEndpoint") IndexJs.endpointOf = Ok (Some b) ->
      run (IndexJs.guiServer req) w
      = (Reply (bare 200 "OK"),
         updated w (Obj.delete (Obj.set (mappings w) b v) a)))
  /\ (Refactored.posted req data ->
      rbind (Js.prop data "oldEndpoint") Refactored.canonicalizeEndpoint = Ok (Some a) ->
      rbind (Js.prop data "newEndpoint") Refactored.canonicalizeEndpoint = Ok (Some b) ->
      run (Refactored.guiServer req) w
      = (Reply (bare 200 "OK"),
         updated w (Obj.delete (Obj.set (mappings w) b v) a))).
Proof.
  intros Hact Hv Hm Hget.
  apply routingKey_not_method in Hm.
  split; [|split].
  - intros k Ha Hb; now rewrite get_delete_other, get_set_other.
  - intros Hpost Hold Hnew.
    destruct (IndexJs_route req data w Hpost) as [Hb ->].
    now rewrite (update_rename _ _ req data w Hb a b), Hget.
  - intros Hpost Hold Hnew.
    destruct (Refactored_route req data w Hpost) as [Hb ->].
    now rewrite (update_rename _ _ req data w Hb a b), Hget.
Qed.

(** X15.  A rename request is refused with 400, whether or not the old
    endpoint is stored, and changes nothing, when either endpoint is
    missing or blank (message [Invalid endpoint]) or when the new endpoint
    is not valid (message [Invalid new endpoint] in [index.js],
    [Invalid endpoint] in the refactored revision). *)
Theorem rename_refused (w : World) (req : Request) (data : json)
        (a b : option string) :
  Js.prop data "action" = Ok (Some (JStr "rename")) ->
  match a, b with
  | Some _, Some b => isValidEndpoint b = false
  | _, _ => True
  end ->
  (IndexJs.posted req data ->
   rbind (Js.prop data "oldEndpoint") IndexJs.endpointOf = Ok a ->
   rbind (Js.prop data "newEndpoint") IndexJs.endpointOf = Ok b ->
   run (IndexJs.guiServer req) w
   = (Reply (plain 400 match a, b with
                       | Some _, Some _ => "Invalid new endpoint"
                       | _, _ => "Invalid endpoint"
                       end), w))
  /\ (Refactored.posted req data ->
      rbind (Js.prop data "oldEndpoint") Refactored.canonicalizeEndpoint = Ok a ->
      rbind (Js.prop data "newEndpoint") Refactored.canonicalizeEndpoint = Ok b ->
      run (Refactored.guiServer req) w = (Reply (plain 400 "Invalid endpoint"), w)).
Proof.
  intros Hact Hv; split; intros Hpost Ha Hb.
  - destruct (IndexJs_route req data w Hpost) as [Hbody ->].
    now apply (update_rename_refused _ _ req data w Hbody a b).
  - destruct (Refactored_route req data w Hpost) as [Hbody ->].
    rewrite (update_rename_refused _ _ req data w Hbody a b) by assumption.
    now destruct a, b.
Qed.

End UpdateBranches.

(** ** Canonical endpoints *)

Lemma lowerChar_facts (c : ascii) :
  JsString.isWhiteSpace (JsString.lowerChar c) = JsString.isWhiteSpace c
  /\ JsString.lowerChar (JsString.lowerChar c) = JsString.lowerChar c.
Proof. destruct c as [[] [] [] [] [] [] [] []]; split; reflexivity. Qed.

Lemma toLowerCase_idempotent (s : string) :
  JsString.toLowerCase (JsString.toLowerCase s) = JsString.toLowerCase s.
Proof.
  induction s as [|c s IH]; simpl; [reflexivity|].
  now rewrite IH, (proj2 (lowerChar_facts c)).
Qed.

Lemma trimStart_toLowerCase (s : string) :
  JsString.trimStart (JsString.toLowerCase s)
  = JsString.toLowerCase (JsString.trimStart s).
Proof.
  induction s as [|c s IH]; simpl; [reflexivity|].
  rewrite (proj1 (lowerChar_facts c)).
  now destruct (JsString.isWhiteSpace c).
Qed.

Lemma trimEnd_toLowerCase (s : string) :
  JsString.trimEnd (JsString.toLowerCase s)
  = JsString.toLowerCase (JsString.trimEnd s).
Proof.
  induction s as [|c s IH]; simpl; [reflexivity|].
  rewrite IH, (proj1 (lowerChar_facts c)).
  destruct (JsString.trimEnd s); simpl; [|reflexivity].
  now destruct (JsString.isWhiteSpace c).
Qed.

Lemma trimEnd_idempotent (s : string) :
  JsString.trimEnd (JsString.trimEnd s) = JsString.trimEnd s.
Proof.
  induction s as [|c s IH]; simpl; [reflexivity|].
  destruct (JsString.trimEnd s) as [|d r] eqn:E.
  - destruct (JsString.isWhiteSpace c) eqn:Hc; simpl; [reflexivity|now rewrite Hc].
  - change (JsString.trimEnd (String c (String d r)))
      with (match JsString.trimEnd (String d r) with
            | EmptyString =>
                if JsString.isWhiteSpace c then EmptyString else String c EmptyString
            | x => String c x
            end).
    now rewrite IH.
Qed.

Lemma trimStart_head (s : string) :
  JsString.trimStart s = EmptyString
  \/ exists c r, JsString.trimStart s = String c r /\ JsString.isWhiteSpace c = false.
Proof.
  induction s as [|c s IH]; simpl; [auto|].
  destruct (JsString.isWhiteSpace c) eqn:Hc; [assumption|eauto].
Qed.

Lemma trimStart_trim (s : string) :
  JsString.trimStart (JsString.trim s) = JsString.trim s.
Proof.
  unfold JsString.trim.
  destruct (trimStart_head s) as [->|(c & r & -> & Hc)]; [reflexivity|].
  simpl; destruct (JsString.trimEnd r); rewrite ?Hc; simpl; now rewrite Hc.
Qed.

Lemma trim_idempotent (s : string) : JsString.trim (JsString.trim s) = JsString.trim s.
Proof.
  unfold JsString.trim at 1; rewrite trimStart_trim.
  unfold JsString.trim; apply trimEnd_idempotent.
Qed.

(** What both revisions make of a string: trimmed, lower case. *)
Lemma core_settled (s : string) :
  let t := JsString.toLowerCase (JsString.trim s) in
  JsString.trimStart t = t /\ JsString.trimEnd t = t /\ JsString.toLowerCase t = t.
Proof.
  cbv zeta; split; [|split].
  - now rewrite trimStart_toLowerCase, trimStart_trim.
  - rewrite trimEnd_toLowerCase; unfold JsString.trim; now rewrite trimEnd_idempotent.
  - apply toLowerCase_idempotent.
Qed.

Lemma withSlash_settled (t : string) :
  JsString.trimStart t = t -> JsString.trimEnd t = t -> JsString.toLowerCase t = t ->
  JsString.truthy t = true ->
  JsString.toLowerCase (JsString.trim (withSlash t)) = withSlash t
  /\ JsString.truthy (withSlash t) = true
  /\ withSlash (withSlash t) = withSlash t
  /\ JsString.startsWith (withSlash t) "/" = true.
Proof.
  intros Hs He Hl Ht; unfold withSlash.
  destruct (JsString.startsWith t "/") eqn:Hsl; simpl.
  - unfold JsString.trim; rewrite Hs, He, Hl, Hsl; auto.
  - unfold JsString.trim; simpl; rewrite He.
    destruct t as [|c t]; [discriminate|].
    simpl in Hl |- *; rewrite Hl; repeat split; now destruct t.
Qed.

Lemma canonicalizeEndpoint_inv (v : option json) (e : string) :
  Refactored.canonicalizeEndpoint v = Ok (Some e) ->
  exists s, e = withSlash (JsString.toLowerCase (JsString.trim s))
            /\ JsString.truthy (JsString.toLowerCase (JsString.trim s)) = true.
Proof.
  unfold Refactored.canonicalizeEndpoint.
  assert (forall r : result string,
             rbind r (fun s =>
                        let s := JsString.toLowerCase (JsString.trim s) in
                        if negb (JsString.truthy s) then Ok None
                        else Ok (Some (withSlash s))) = Ok (Some e) ->
             exists s, e = withSlash (JsString.toLowerCase (JsString.trim s))
                       /\ JsString.truthy (JsString.toLowerCase (JsString.trim s)) = true)
    as Hr.
  { intros [s|]; simpl; [|discriminate].
    destruct (JsString.truthy _) eqn:Ht; simpl; [|discriminate].
    intros [= <-]; eauto. }
  destruct v as [[]|]; try discriminate; apply Hr.
Qed.

Lemma endpointOf_inv (v : option json) (e : string) :
  IndexJs.endpointOf v = Ok (Some e) ->
  exists s, e = withSlash (JsString.toLowerCase (JsString.trim s))
            /\ JsString.truthy (JsString.toLowerCase (JsString.trim s)) = true.
Proof.
  unfold IndexJs.endpointOf.
  destruct v as [[]|]; simpl; try discriminate.
  destruct (JsString.truthy _) eqn:Ht; simpl; [|discriminate].
  intros [= <-]; eauto.
Qed.

(** X16.  Canonicalisation is idempotent, in both revisions: the endpoint
    that a field canonicalises to begins with a slash and, sent as a string,
    canonicalises to itself. *)
Theorem canonical_endpoint_is_fixed (v : option json) (e : string) :
  (Refactored.canonicalizeEndpoint v = Ok (Some e) ->
   Refactored.canonicalizeEndpoint (Some (JStr e)) = Ok (Some e)
   /\ JsString.startsWith e "/" = true)
  /\ (IndexJs.endpointOf v = Ok (Some e) ->
      IndexJs.endpointOf (Some (JStr e)) = Ok (Some e)
      /\ JsString.startsWith e "/" = true).
Proof.
  split; intros H.
  - apply canonicalizeEndpoint_inv in H as (s & -> & Ht).
    destruct (core_settled s) as (Hs & He & Hl).
    destruct (withSlash_settled _ Hs He Hl Ht) as (Hfix & Htr & Hws & Hsl).
    split; [|assumption].
    unfold Refactored.canonicalizeEndpoint; simpl.
    now rewrite Hfix, Htr, Hws.
  - apply endpointOf_inv in H as (s & -> & Ht).
    destruct (core_settled s) as (Hs & He & Hl).
    destruct (withSlash_settled _ Hs He Hl Ht) as (Hfix & Htr & Hws & Hsl).
    split; [|assumption].
    unfold IndexJs.endpointOf; simpl.
    now rewrite Hfix, Htr, Hws.
Qed.

(** ** The two revisions side by side *)

Lemma canon_agree (r : result (option json)) :
  textField r ->
  rbind r IndexJs.endpointOf = rbind r Refactored.canonicalizeEndpoint.
Proof.
  destruct r as [[[]|]|]; simpl; try contradiction; try reflexivity.
  intros _; unfold IndexJs.endpointOf, Refactored.canonicalizeEndpoint; simpl.
  now destruct (JsString.truthy _).
Qed.

(** Two handlers in the common form whose canonicalisations agree on the
    three endpoint fields of the body end in the same world, with the same
    status code. *)
Lemma updateWith_agree
      (canon1 canon2 : option json -> result (option string))
      (msg1 msg2 : string) (req : Request) (data : json) (w : World) :
  body req = Some data ->
  rbind (Js.prop data "endpoint") canon1 = rbind (Js.prop data "endpoint") canon2 ->
  rbind (Js.prop data "oldEndpoint") canon1 = rbind (Js.prop data "oldEndpoint") canon2 ->
  rbind (Js.prop data "newEndpoint") canon1 = rbind (Js.prop data "newEndpoint") canon2 ->
  snd (run (updateWith canon1 msg1 req) w) = snd (run (updateWith canon2 msg2 req) w)
  /\ statusOf (fst (run (updateWith canon1 msg1 req) w))
     = statusOf (fst (run (updateWith canon2 msg2 req) w)).
Proof.
  intros Hbody He Ho Hn.
  unfold run, updateWith, tryCatch, bind, lift, actionIs, ret.
  rewrite Hbody; simpl.
  destruct (Js.prop data "action") as [a|]; simpl; [|auto].
  destruct (Js.strictEq a "add").
  { unfold addWith, bind, lift; now rewrite He. }
  destruct (Js.strictEq a "delete").
  { unfold deleteWith, bind, lift; now rewrite He. }
  destruct (Js.strictEq a "rename"); simpl; auto.
  unfold renameWith, moveEndpoint, bind, lift, getMappings, putMappings,
    Obj.hasOwnProperty.
  rewrite Ho, Hn.
  destruct (rbind (Js.prop data "oldEndpoint") canon2) as [[o|]|];
    destruct (rbind (Js.prop data "newEndpoint") canon2) as [[n|]|];
    simpl; auto.
  destruct (isValidEndpoint n); simpl; auto.
Qed.

(** No key of a routing table is [__proto__]. *)
Lemma routingTable_reported (m : table) : routingTable m -> filter reported m = m.
Proof.
  unfold routingTable; induction 1 as [|[k v] m Hk _ IH]; simpl; [reflexivity|].
  destruct k as [|c k]; [discriminate|].
  assert (reported (String c k, v) = true) as ->; [|now rewrite IH].
  apply prefix_cons in Hk as [<- _]; reflexivity.
Qed.

Section SideBySide.

Context {platform : Platform}.

(** X17.  On a POST to [/update] whose endpoint fields ([endpoint],
    [oldEndpoint], [newEndpoint]) are each absent, [null] or a string, the
    two revisions answer with the same status code and leave the same
    table and the same mappings file; the refactoring changed only the
    wording of one refusal and what happens to fields that are not
    strings. *)
Theorem revisions_agree_on_text_fields (req : Request) (data : json) (w : World) :
  Refactored.posted req data ->
  textField (Js.prop data "endpoint") ->
  textField (Js.prop data "oldEndpoint") ->
  textField (Js.prop data "newEndpoint") ->
  snd (run (IndexJs.guiServer req) w) = snd (run (Refactored.guiServer req) w)
  /\ statusOf (fst (run (IndexJs.guiServer req) w))
     = statusOf (fst (run (Refactored.guiServer req) w)).
Proof.
  intros Hpost He Ho Hn.
  assert (IndexJs.posted req data) as Hpost'.
  { destruct Hpost as (Hm & Hb & u & Hu & Hp); repeat split; eauto. }
  destruct (IndexJs_route req data w Hpost') as [Hb ->].
  destruct (Refactored_route req data w Hpost) as [_ ->].
  apply (updateWith_agree _ _ _ _ req data w Hb); now apply canon_agree.
Qed.

(** X18.  While every stored port lies in 0-65535, a GET of [/get] is
    answered 200 with one entry per entry of the table whose key is not
    [__proto__], in the order of the table, each with its stored port and
    with the verdict of the probe on that port; in a routing table, whose
    keys begin with a slash, that is one entry per entry of the table.
    The table and the mappings file are left as they are.  [index.js]
    answers [/gui/get] the same way. *)
Theorem status_report (req : Request) (w : World) (u : URL) :
  URL_new (url req) (Some ("http://localhost:" ++ GUI_PORT)) = Some u ->
  method req = "GET" ->
  portsInRange (mappings w) ->
  exists entries,
    map (fun x => (fst x, fst (snd x))) entries = filter reported (mappings w)
    /\ (routingTable (mappings w) ->
        map (fun x => (fst x, fst (snd x))) entries = mappings w)
    /\ Forall (fun x => snd (snd x) = checkPortStatus (fst (snd x))) entries
    /\ (pathname u = "/get" \/ pathname u = "/gui/get" ->
        run (IndexJs.guiServer req) w
        = (Reply {| status := 200; contentType := Some "application/json";
                    content := Status entries |}, w))
    /\ (pathname u = "/get" ->
        run (Refactored.guiServer req) w
        = (Reply {| status := 200; contentType := Some "application/json";
                    content := Status entries |}, w)).
Proof.
  intros Hu Hm Hports.
  apply forallb_portsInRange in Hports.
  assert (map (fun x : string * (Z * bool) => (fst x, fst (snd x)))
              (map (fun kv => (fst kv, (snd kv, checkPortStatus (snd kv))))
                   (filter reported (mappings w)))
          = filter reported (mappings w)) as Hmap.
  { rewrite map_map; simpl.
    induction (filter reported (mappings w)) as [|[k v] m IH]; simpl; congruence. }
  exists (map (fun kv => (fst kv, (snd kv, checkPortStatus (snd kv))))
              (filter reported (mappings w))).
  split; [exact Hmap|split; [|split; [|split]]].
  - intros Hr; rewrite Hmap; now apply routingTable_reported.
  - apply Forall_forall; intros x Hx.
    apply in_map_iff in Hx as (kv & <- & _); reflexivity.
  - intros Hp; unfold run, IndexJs.guiServer, getMappingsWithStatus, bind, lift,
      getMappings, ret.
    rewrite Hu, Hm; destruct Hp as [-> | ->]; simpl; now rewrite Hports.
  - intros Hp; unfold run, Refactored.guiServer, getMappingsWithStatus, bind, lift,
      getMappings, ret.
    rewrite Hu, Hm, Hp; simpl; now rewrite Hports.
Qed.

(** X26.  When some stored port lies outside 0-65535, a GET of [/get] is
    not answered: [http.request] throws in the probe of that port, the
    promise of [getMappingsWithStatus] is rejected and [guiServer] does not
    handle the rejection.  The table and the mappings file are left as they
    are.  [index.js] treats [/gui/get] the same way. *)
Theorem status_route_bad_port (req : Request) (w : World) (u : URL) :
  URL_new (url req) (Some ("http://localhost:" ++ GUI_PORT)) = Some u ->
  method req = "GET" ->
  ~ portsInRange (mappings w) ->
  (pathname u = "/get" \/ pathname u = "/gui/get" ->
   run (IndexJs.guiServer req) w = (Uncaught, w))
  /\ (pathname u = "/get" ->
      run (Refactored.guiServer req) w = (Uncaught, w)).
Proof.
  intros Hu Hm Hports.
  assert (forallb (fun kv => validPort (snd kv)) (mappings w) = false) as Hf.
  { destruct (forallb _ _) eqn:E; [|reflexivity].
    now apply forallb_portsInRange in E. }
  split; intros Hp.
  - unfold run, IndexJs.guiServer, getMappingsWithStatus, bind, lift,
      getMappings, ret.
    rewrite Hu, Hm; destruct Hp as [-> | ->]; simpl; now rewrite Hf.
  - unfold run, Refactored.guiServer, getMappingsWithStatus, bind, lift,
      getMappings, ret.
    rewrite Hu, Hm, Hp; simpl; now rewrite Hf.
Qed.

End SideBySide.

(** ** Where the proxy forwards *)

(** X19.  The proxy only forwards to a port that the table holds: behind
    every forward there is a stored endpoint with that port, the request
    path is not under [/gui], and the target is
    [http://localhost:<port><forwarded path><query>]. *)
Theorem forward_goes_to_stored_port {platform : Platform}
        (m : table) (req : Request) (v : option Z) (targetPath targetUrl : string) :
  proxyServer m req = Forward v targetPath targetUrl ->
  exists u e p,
    URL_new (url req) (Some ("http://localhost:" ++ PORT)) = Some u
    /\ (String.eqb (pathname u) "/gui" || JsString.startsWith (pathname u) "/gui/") = false
    /\ Obj.get m e = Some p /\ v = Some p
    /\ targetUrl
       = "http://localhost:" ++ Js.Number_toString p ++ targetPath ++ search u.
Proof.
  unfold proxyServer.
  destruct (URL_new _ _) as [u|]; [|discriminate].
  destruct (_ || _) eqn:Hgui; [discriminate|].
  destruct (findEndpoint _ _ _) as [r|] eqn:Hfind; [|discriminate].
  destruct (findEndpoint_stored _ _ _ _ Hfind) as (p & Hget & Hport).
  cbv zeta; destruct (requestable (port r)); [|discriminate].
  intros [= <- <- <-].
  exists u, (endpoint r), p; rewrite Hport, or_empty_r; simpl; auto.
Qed.

(** ** Requests one after the other *)

Lemma delete_set_absent (m : table) (e : string) (p : Z) :
  Obj.get m e = None -> Obj.delete (Obj.set m e p) e = m.
Proof.
  unfold Obj.delete; induction m as [|[k v] m IH]; simpl.
  - now rewrite String.eqb_refl.
  - destruct (String.eqb k e) eqn:Hk; [discriminate|].
    intros H; simpl; rewrite Hk; simpl; f_equal; auto.
Qed.

Section Sequences.

Context {platform : Platform}.

(** X20.  Adding an endpoint that is not in the table and then deleting it
    gives back the table as it was, entry for entry; the mappings file has
    been written twice, last with that table. *)
Theorem add_then_delete_restores (w : World) (req1 req2 : Request)
        (data1 data2 : json) (e : string) (p : Z) :
  Js.prop data1 "action" = Ok (Some (JStr "add")) ->
  Js.prop data2 "action" = Ok (Some (JStr "delete")) ->
  isValidEndpoint e = true ->
  rbind (Js.prop data1 "port") Js.parseInt = Ok (Some p) ->
  1 <= p <= 65535 ->
  Obj.get (mappings w) e = None ->
  (IndexJs.posted req1 data1 -> IndexJs.posted req2 data2 ->
   rbind (Js.prop data1 "endpoint") IndexJs.endpointOf = Ok (Some e) ->
   rbind (Js.prop data2 "endpoint") IndexJs.endpointOf = Ok (Some e) ->
   snd (run (IndexJs.guiServer req2) (snd (run (IndexJs.guiServer req1) w)))
   = {| mappings := mappings w;
        saved := mappings w :: Obj.set (mappings w) e p :: saved w |})
  /\ (Refactored.posted req1 data1 -> Refactored.posted req2 data2 ->
      rbind (Js.prop data1 "endpoint") Refactored.canonicalizeEndpoint = Ok (Some e) ->
      rbind (Js.prop data2 "endpoint") Refactored.canonicalizeEndpoint = Ok (Some e) ->
      snd (run (Refactored.guiServer req2) (snd (run (Refactored.guiServer req1) w)))
      = {| mappings := mappings w;
           saved := mappings w :: Obj.set (mappings w) e p :: saved w |}).
Proof.
  intros Hadd Hdel Hv Hport Hp Habsent.
  apply in_range in Hp.
  split; intros Hpost1 Hpost2 He1 He2.
  - destruct (IndexJs_route req1 data1 w Hpost1) as [Hb1 ->].
    rewrite (update_add _ _ req1 data1 w Hb1 e (Some p)), Hp by assumption.
    cbn [snd].
    match goal with
    | |- context [run _ ?w1] =>
        destruct (IndexJs_route req2 data2 w1 Hpost2) as [Hb2 ->]
    end.
    rewrite (update_delete _ _ req2 data2 _ Hb2 (Some e)) by assumption.
    simpl; unfold updated; simpl; now rewrite delete_set_absent.
  - destruct (Refactored_route req1 data1 w Hpost1) as [Hb1 ->].
    rewrite (update_add _ _ req1 data1 w Hb1 e (Some p)), Hp by assumption.
    cbn [snd].
    match goal with
    | |- context [run _ ?w1] =>
        destruct (Refactored_route req2 data2 w1 Hpost2) as [Hb2 ->]
    end.
    rewrite (update_delete _ _ req2 data2 _ Hb2 (Some e)) by assumption.
    simpl; unfold updated; simpl; now rewrite delete_set_absent.
Qed.

(** X21.  Renaming [a] to an endpoint [b] that is not in the table and then
    renaming [b] back to [a] restores every lookup (the entry of [a] is
    then enumerated last). *)
Theorem rename_there_and_back (w : World) (req1 req2 : Request)
        (data1 data2 : json) (a b : string) (v : Z) :
  Js.prop data1 "action" = Ok (Some (JStr "rename")) ->
  Js.prop data2 "action" = Ok (Some (JStr "rename")) ->
  isValidEndpoint a = true ->
  isValidEndpoint b = true ->
  routingTable (mappings w) ->
  Obj.get (mappings w) a = Some v ->
  Obj.get (mappings w) b = None ->
  (IndexJs.posted req1 data1 -> IndexJs.posted req2 data2 ->
   rbind (Js.prop data1 "oldEndpoint") IndexJs.endpointOf = Ok (Some a) ->
   rbind (Js.prop data1 "newEndpoint") IndexJs.endpointOf = Ok (Some b) ->
   rbind (Js.prop data2 "oldEndpoint") IndexJs.endpointOf = Ok (Some b) ->
   rbind (Js.prop data2 "newEndpoint") IndexJs.endpointOf = Ok (Some a) ->
   forall k,
     Obj.get (mappings (snd (run (IndexJs.guiServer req2)
                               (snd (run (IndexJs.guiServer req1) w))))) k
     = Obj.get (mappings w) k)
  /\ (Refactored.posted req1 data1 -> Refactored.posted req2 data2 ->
      rbind (Js.prop data1 "oldEndpoint") Refactored.canonicalizeEndpoint = Ok (Some a) ->
      rbind (Js.prop data1 "newEndpoint") Refactored.canonicalizeEndpoint = Ok (Some b) ->
      rbind (Js.prop data2 "oldEndpoint") Refactored.canonicalizeEndpoint = Ok (Some b) ->
      rbind (Js.prop data2 "newEndpoint") Refactored.canonicalizeEndpoint = Ok (Some a) ->
      forall k,
        Obj.get (mappings (snd (run (Refactored.guiServer req2)
                                  (snd (run (Refactored.guiServer req1) w))))) k
        = Obj.get (mappings w) k).
Proof.
  intros Hr1 Hr2 Ha Hb Hm Hget Habsent.
  assert (a <> b) as Hab by congruence.
  set (m1 := Obj.delete (Obj.set (mappings w) b v) a).
  assert (routingTable m1) as Hm1.
  { apply routingTable_delete, routingTable_set; auto.
    apply (isValidEndpoint_plain b Hb). }
  assert (Obj.get m1 b = Some v) as Hget1.
  { unfold m1; rewrite get_delete_other by assumption; apply get_set_same. }
  assert (forall k, Obj.get (Obj.delete (Obj.set m1 a v) b) k = Obj.get (mappings w) k)
    as Hback.
  { intros k; destruct (String.eqb_spec b k) as [<-|Hbk].
    - now rewrite get_delete_same.
    - rewrite get_delete_other by assumption.
      destruct (String.eqb_spec a k) as [<-|Hak].
      + now rewrite get_set_same.
      + rewrite get_set_other by assumption.
        unfold m1; now rewrite get_delete_other, get_set_other. }
  apply routingKey_not_method in Hm.
  apply routingKey_not_method in Hm1.
  split; intros Hpost1 Hpost2 Ho1 Hn1 Ho2 Hn2 k.
  - destruct (IndexJs_route req1 data1 w Hpost1) as [Hb1 ->].
    rewrite (update_rename _ _ req1 data1 w Hb1 a b), Hget by assumption.
    cbn [snd]; fold m1.
    match goal with
    | |- context [run _ ?w1] =>
        destruct (IndexJs_route req2 data2 w1 Hpost2) as [Hb2 ->]
    end.
    rewrite (update_rename _ _ req2 data2 _ Hb2 b a) by assumption.
    simpl; rewrite Hget1; simpl; apply Hback.
  - destruct (Refactored_route req1 data1 w Hpost1) as [Hb1 ->].
    rewrite (update_rename _ _ req1 data1 w Hb1 a b), Hget by assumption.
    cbn [snd]; fold m1.
    match goal with
    | |- context [run _ ?w1] =>
        destruct (Refactored_route req2 data2 w1 Hpost2) as [Hb2 ->]
    end.
    rewrite (update_rename _ _ req2 data2 _ Hb2 b a) by assumption.
    simpl; rewrite Hget1; simpl; apply Hback.
Qed.

End Sequences.

(** ** The further properties on concrete requests *)

Lemma adminTable_appAndBlog : adminTable appAndBlog.
Proof. repeat constructor; simpl; lia. Defined.

Lemma routingTable_appAndBlog : routingTable appAndBlog.
Proof. repeat constructor. Defined.

Lemma direct_match_iff_witness :
  @findEndpoint Plain.platform twoApps "/app/api/users" "http://host/app/page"
  = Some {| endpoint := "/app/api"; port := Some 9090; matchedByPath := true |}.
Proof.
  apply (proj2 (@direct_match_iff Plain.platform twoApps "/app/api/users"
                  "http://host/app/page" "/app/api" (Some 9090))).
  split; [right; left; reflexivity|].
  split; [reflexivity|split; [reflexivity|]].
  intros e' [<-|[<-|[]]] _; simpl; lia.
Defined.

Lemma referer_match_iff_witness :
  @findEndpoint Plain.platform appAndBlog "/assets/style.css" "http://host/blog/post"
  = Some {| endpoint := "/blog"; port := Some 8081; matchedByPath := false |}.
Proof.
  apply (proj2 (@referer_match_iff Plain.platform appAndBlog "/assets/style.css"
                  "http://host/blog/post" "/blog" (Some 8081))).
  split; [intros k [<-|[<-|[]]]; reflexivity|].
  split; [discriminate|].
  exists (at_ "/blog/post").
  split; [reflexivity|split; [right; left; reflexivity|]].
  split; [reflexivity|split; [reflexivity|]].
  intros e' [<-|[<-|[]]] H; [discriminate H|simpl; lia].
Defined.

Lemma no_match_iff_witness :
  @findEndpoint Plain.platform appAndBlog "/assets/style.css" "not a url" = None.
Proof.
  apply (proj2 (@no_match_iff Plain.platform appAndBlog "/assets/style.css" "not a url")).
  split; [intros k [<-|[<-|[]]]; reflexivity|].
  right; left; reflexivity.
Defined.

Lemma forward_strips_endpoint_witness :
  exists targetPath,
    @proxyServer Plain.platform twoApps (fetch "/app/api/users" None)
    = Forward (Some 9090) targetPath ("http://localhost:9090" ++ targetPath ++ "")
    /\ (("/app/api/users" = "/app/api" /\ targetPath = "/")
        \/ ("/app/api/users" = "/app/api" ++ targetPath
            /\ JsString.startsWith targetPath "/" = true)).
Proof.
  apply (@forward_strips_endpoint Plain.platform twoApps
           (fetch "/app/api/users" None) (at_ "/app/api/users")
           {| endpoint := "/app/api"; port := Some 9090; matchedByPath := true |});
    reflexivity.
Defined.

Lemma admin_table_single_match_witness :
  "/blog" = firstSegment "/blog/post/1"
  /\ (forall e', In e' (Obj.keys appAndBlog) -> hit "/blog/post/1" e' = true ->
                 e' = "/blog")
  /\ @findEndpoint Plain.platform appAndBlog "/blog/post/1" ""
     = Some {| endpoint := "/blog"; port := Obj.get appAndBlog "/blog";
               matchedByPath := true |}.
Proof.
  apply (@admin_table_single_match Plain.platform appAndBlog "/blog/post/1" "" "/blog");
    [exact adminTable_appAndBlog|right; left; reflexivity|reflexivity].
Defined.

Lemma guiServer_keeps_adminTable_witness :
  adminTable (mappings (snd (run (@IndexJs.guiServer Plain.platform
                                    (post (add (JStr "Wiki") (JStr "9000"))))
                                 (world appAndBlog))))
  /\ adminTable (mappings (snd (run (@Refactored.guiServer Plain.platform
                                       (post (add (JStr "Wiki") (JStr "9000"))))
                                    (world appAndBlog)))).
Proof.
  apply (@guiServer_keeps_adminTable Plain.platform
           (post (add (JStr "Wiki") (JStr "9000"))) (world appAndBlog)).
  exact adminTable_appAndBlog.
Defined.

Lemma only_post_changes_witness :
  snd (run (@IndexJs.guiServer Plain.platform (fetch "/update" None)) (world oneApp))
  = world oneApp
  /\ snd (run (@Refactored.guiServer Plain.platform (fetch "/update" None)) (world oneApp))
     = world oneApp.
Proof.
  apply (@only_post_changes Plain.platform (fetch "/update" None) (world oneApp)).
  discriminate.
Defined.

Lemma uncaught_iff_bad_url_witness :
  portsInRange oneApp
  /\ @proxyServer Plain.platform oneApp (fetch "//" None) = Uncaught.
Proof.
  assert (portsInRange oneApp) as Hports by (repeat constructor; simpl; lia).
  split; [exact Hports|].
  apply (proj2 (proj1 (@uncaught_iff_bad_url Plain.platform oneApp
                         (fetch "//" None) (world oneApp) Hports Hports))).
  reflexivity.
Defined.

Lemma delete_then_get_witness :
  run (@IndexJs.guiServer Plain.platform (post (remove (JStr " Blog ")))) (world appAndBlog)
  = (Reply (bare 200 "OK"), updated (world appAndBlog) (Obj.delete appAndBlog "/blog"))
  /\ run (@Refactored.guiServer Plain.platform (post (remove (JStr "ghost"))))
         (world appAndBlog)
     = (Reply (bare 200 "OK"), updated (world appAndBlog) (Obj.delete appAndBlog "/ghost")).
Proof.
  split.
  - apply (@delete_then_get Plain.platform (world appAndBlog) _
             (remove (JStr " Blog ")) "/blog");
      try reflexivity; apply posted_IndexJs.
  - apply (@delete_then_get Plain.platform (world appAndBlog) _
             (remove (JStr "ghost")) "/ghost");
      try reflexivity; apply posted_Refactored.
Defined.

Lemma add_writes_one_entry_witness :
  run (@IndexJs.guiServer Plain.platform (post (add (JStr "wiki") (Js.JInt 9000))))
      (world appAndBlog)
  = (Reply (bare 200 "OK"), updated (world appAndBlog) (Obj.set appAndBlog "/wiki" 9000))
  /\ run (@Refactored.guiServer Plain.platform (post (add (JStr "app") (Js.JInt 9000))))
         (world appAndBlog)
     = (Reply (bare 200 "OK"), updated (world appAndBlog) (Obj.set appAndBlog "/app" 9000)).
Proof.
  split.
  - apply (@add_writes_one_entry Plain.platform (world appAndBlog) _
             (add (JStr "wiki") (Js.JInt 9000)) "/wiki" 9000);
      try reflexivity; [lia|apply posted_IndexJs].
  - apply (@add_writes_one_entry Plain.platform (world appAndBlog) _
             (add (JStr "app") (Js.JInt 9000)) "/app" 9000);
      try reflexivity; [lia|apply posted_Refactored].
Defined.

Lemma add_invalid_endpoint_refused_witness :
  run (@IndexJs.guiServer Plain.platform (post (add (JStr " GUI ") (Js.JInt 9000))))
      (world oneApp)
  = (Reply (plain 400 "Invalid endpoint"), world oneApp)
  /\ run (@Refactored.guiServer Plain.platform (post (add (JStr "   ") (Js.JInt 9000))))
         (world oneApp)
     = (Reply (plain 400 "Invalid endpoint"), world oneApp).
Proof.
  split.
  - apply (@add_invalid_endpoint_refused Plain.platform (world oneApp) _
             (add (JStr " GUI ") (Js.JInt 9000)) (Some "/gui"));
      try reflexivity; apply posted_IndexJs.
  - apply (@add_invalid_endpoint_refused Plain.platform (world oneApp) _
             (add (JStr "   ") (Js.JInt 9000)) None);
      try reflexivity; try exact I; apply posted_Refactored.
Defined.

Lemma rename_touches_two_entries_witness :
  run (@IndexJs.guiServer Plain.platform (post (rename (JStr "app") (JStr "wiki"))))
      (world appAndBlog)
  = (Reply (bare 200 "OK"),
     updated (world appAndBlog) (Obj.delete (Obj.set appAndBlog "/wiki" 8080) "/app"))
  /\ run (@Refactored.guiServer Plain.platform (post (rename (JStr "app") (JStr "blog"))))
         (world appAndBlog)
     = (Reply (bare 200 "OK"),
        updated (world appAndBlog) (Obj.delete (Obj.set appAndBlog "/blog" 8080) "/app")).
Proof.
  split.
  - apply (@rename_touches_two_entries Plain.platform (world appAndBlog) _
             (rename (JStr "app") (JStr "wiki")) "/app" "/wiki" 8080);
      try reflexivity; [exact routingTable_appAndBlog|apply posted_IndexJs].
  - apply (@rename_touches_two_entries Plain.platform (world appAndBlog) _
             (rename (JStr "app") (JStr "blog")) "/app" "/blog" 8080);
      try reflexivity; [exact routingTable_appAndBlog|apply posted_Refactored].
Defined.

Lemma rename_refused_witness :
  run (@IndexJs.guiServer Plain.platform (post (rename (JStr "app") (JStr "gui"))))
      (world oneApp)
  = (Reply (plain 400 "Invalid new endpoint"), world oneApp)
  /\ run (@Refactored.guiServer Plain.platform (post (rename (JStr "app") JNull)))
         (world oneApp)
     = (Reply (plain 400 "Invalid endpoint"), world oneApp).
Proof.
  split.
  - apply (@rename_refused Plain.platform (world oneApp) _
             (rename (JStr "app") (JStr "gui")) (Some "/app") (Some "/gui"));
      try reflexivity; apply posted_IndexJs.
  - apply (@rename_refused Plain.platform (world oneApp) _
             (rename (JStr "app") JNull) (Some "/app") None);
      try reflexivity; try exact I; apply posted_Refactored.
Defined.

Lemma canonical_endpoint_is_fixed_witness :
  (Refactored.canonicalizeEndpoint (Some (JStr "/my-app")) = Ok (Some "/my-app")
   /\ JsString.startsWith "/my-app" "/" = true)
  /\ (IndexJs.endpointOf (Some (JStr "/my-app")) = Ok (Some "/my-app")
      /\ JsString.startsWith "/my-app" "/" = true).
Proof.
  split.
  - apply (proj1 (canonical_endpoint_is_fixed (Some (JStr "  My-App ")) "/my-app"));
      reflexivity.
  - apply (proj2 (canonical_endpoint_is_fixed (Some (JStr "  My-App ")) "/my-app"));
      reflexivity.
Defined.

Lemma revisions_agree_on_text_fields_witness :
  snd (run (@IndexJs.guiServer Plain.platform
              (post (rename (JStr "app") (JStr "My App!")))) (world oneApp))
  = snd (run (@Refactored.guiServer Plain.platform
                (post (rename (JStr "app") (JStr "My App!")))) (world oneApp))
  /\ statusOf (fst (run (@IndexJs.guiServer Plain.platform
                           (post (rename (JStr "app") (JStr "My App!")))) (world oneApp)))
     = statusOf (fst (run (@Refactored.guiServer Plain.platform
                             (post (rename (JStr "app") (JStr "My App!")))) (world oneApp))).
Proof.
  apply (@revisions_agree_on_text_fields Plain.platform _
           (rename (JStr "app") (JStr "My App!")) (world oneApp));
    [apply posted_Refactored|exact I|exact I|exact I].
Defined.

Lemma status_report_witness :
  portsInRange appAndBlog
  /\ exists entries,
       map (fun x => (fst x, fst (snd x))) entries = appAndBlog
       /\ Forall (fun x => snd (snd x) = false) entries
       /\ run (@Refactored.guiServer Plain.platform (fetch "/get" None)) (world appAndBlog)
          = (Reply {| status := 200; contentType := Some "application/json";
                      content := Status entries |}, world appAndBlog).
Proof.
  pose proof (adminTable_portsInRange _ adminTable_appAndBlog) as Hports.
  split; [exact Hports|].
  destruct (@status_report Plain.platform (fetch "/get" None) (world appAndBlog)
              (at_ "/get") eq_refl eq_refl Hports) as (entries & Hm & _ & Hs & _ & Hr).
  exists entries; split; [exact Hm|split; [exact Hs|]].
  apply Hr; reflexivity.
Defined.

Lemma forward_goes_to_stored_port_witness :
  exists u e p,
    Plain.parse "/app/home" (Some "http://localhost:3003") = Some u
    /\ (String.eqb (pathname u) "/gui" || JsString.startsWith (pathname u) "/gui/") = false
    /\ Obj.get twoApps e = Some p /\ Some 8080 = Some p
    /\ "http://localhost:8080/home"
       = "http://localhost:" ++ Js.Number_toString p ++ "/home" ++ search u.
Proof.
  apply (@forward_goes_to_stored_port Plain.platform twoApps (fetch "/app/home" None)
           (Some 8080) "/home" "http://localhost:8080/home").
  reflexivity.
Defined.

Lemma add_then_delete_restores_witness :
  snd (run (@IndexJs.guiServer Plain.platform (post (remove (JStr "wiki"))))
           (snd (run (@IndexJs.guiServer Plain.platform
                        (post (add (JStr "wiki") (Js.JInt 9000)))) (world appAndBlog))))
  = {| mappings := appAndBlog;
       saved := [appAndBlog; Obj.set appAndBlog "/wiki" 9000] |}.
Proof.
  refine (proj1 (@add_then_delete_restores Plain.platform (world appAndBlog)
                   (post (add (JStr "wiki") (Js.JInt 9000)))
                   (post (remove (JStr "wiki")))
                   (add (JStr "wiki") (Js.JInt 9000)) (remove (JStr "wiki"))
                   "/wiki" 9000 eq_refl eq_refl eq_refl eq_refl _ eq_refl)
                _ _ eq_refl eq_refl);
    [lia|apply posted_IndexJs|apply posted_IndexJs].
Defined.

Lemma rename_there_and_back_witness :
  Obj.get (mappings
             (snd (run (@Refactored.guiServer Plain.platform
                          (post (rename (JStr "wiki") (JStr "app"))))
                       (snd (run (@Refactored.guiServer Plain.platform
                                    (post (rename (JStr "app") (JStr "wiki"))))
                                 (world appAndBlog)))))) "/app"
  = Obj.get appAndBlog "/app".
Proof.
  refine (proj2 (@rename_there_and_back Plain.platform (world appAndBlog)
                   (post (rename (JStr "app") (JStr "wiki")))
                   (post (rename (JStr "wiki") (JStr "app")))
                   (rename (JStr "app") (JStr "wiki"))
                   (rename (JStr "wiki") (JStr "app"))
                   "/app" "/wiki" 8080 eq_refl eq_refl eq_refl eq_refl
                   routingTable_appAndBlog eq_refl eq_refl)
                _ _ eq_refl eq_refl eq_refl eq_refl "/app");
    apply posted_Refactored.
Defined.

Lemma guiServer_keeps_routingTable_witness :
  routingTable (mappings (snd (run (@IndexJs.guiServer Plain.platform
                                      (post (rename (JStr "app") (JStr "wiki"))))
                                   (world appAndBlog))))
  /\ routingTable (mappings (snd (run (@Refactored.guiServer Plain.platform
                                         (post (rename (JStr "app") (JStr "wiki"))))
                                      (world appAndBlog)))).
Proof.
  apply (@guiServer_keeps_routingTable Plain.platform
           (post (rename (JStr "app") (JStr "wiki"))) (world appAndBlog)).
  exact routingTable_appAndBlog.
Defined.

(** X23.  The proxy answers 404 Not Found in two cases only: the request
    path is [/gui] or under it, or the resolver finds no match. *)
Theorem proxy_not_found_iff {platform : Platform} (m : table) (req : Request) :
  proxyServer m req = Reply notFound
  <-> exists u,
        URL_new (url req) (Some ("http://localhost:" ++ PORT)) = Some u
        /\ ((String.eqb (pathname u) "/gui" || JsString.startsWith (pathname u) "/gui/")
            = true
            \/ findEndpoint m (pathname u) (refererOf req) = None).
Proof.
  unfold proxyServer; split.
  - destruct (URL_new _ _) as [u|]; [|discriminate].
    intros H; exists u; split; [reflexivity|].
    destruct (_ || _); [auto|].
    destruct (findEndpoint _ _ _) as [r|]; [|auto].
    cbv zeta in H; destruct (requestable (port r)); discriminate.
  - intros (u & -> & [-> | Hnone]); [reflexivity|].
    rewrite Hnone; now destruct (_ || _).
Qed.

Lemma proxy_not_found_iff_witness :
  @proxyServer Plain.platform appAndBlog (fetch "/wiki/page" (Some "not a url"))
  = Reply notFound.
Proof.
  apply (proj2 (@proxy_not_found_iff Plain.platform appAndBlog
                  (fetch "/wiki/page" (Some "not a url")))).
  exists (at_ "/wiki/page"); split; [reflexivity|right; reflexivity].
Defined.


Lemma status_route_bad_port_witness :
  ~ portsInRange [("/app", 70000)]
  /\ run (@IndexJs.guiServer Plain.platform (fetch "/get" None)) (world [("/app", 70000)])
     = (Uncaught, world [("/app", 70000)]).
Proof.
  assert (~ portsInRange [("/app", 70000)]) as Hports.
  { intros H; apply Forall_inv in H; simpl in H; lia. }
  split; [exact Hports|].
  apply (proj1 (@status_route_bad_port Plain.platform (fetch "/get" None)
                  (world [("/app", 70000)]) (at_ "/get") eq_refl eq_refl Hports)).
  left; reflexivity.
Defined.
